(** * Stateless viem transport: attestation and proof gating

    A shallow embedding of [src/index.ts] (class [StatelessRpcClient] and
    [createStatelessTransport]) and the properties of its response-integrity
    checks.

    The TypeScript code is asynchronous, talks to the network and can throw.
    It is embedded in two layers:
    - synchronous code that can throw lives in [completion];
    - [async] code lives in [M], a state-and-exception monad over the
      network: every [fetch] consumes the current world and is recorded in a
      trace, so that statements of the form "no request was sent" can be made.

    Libraries the code imports (Node's [crypto] and [Buffer], [tweetnacl],
    [sshpk], [@ethereumjs/trie], [JSON], [fetch], [Date]) are not part of the
    repository.  They are the fields of a record [Runtime]; every theorem
    holds for every runtime, including runtimes whose functions throw.

    Inputs have the shape their TypeScript types declare: a response has an
    [attestations] array, the optional fields of an attestation are present
    or absent, the threshold is an integer.  Values typed [unknown] or [any]
    are arbitrary JavaScript values. *)

From Stdlib Require Import List String Ascii ZArith QArith Bool Lia.
From Stdlib Require Import Strings.Byte.
From Stdlib Require Import DecimalString.
Import ListNotations.

Local Close Scope Q_scope.
Local Open Scope string_scope.
Local Open Scope list_scope.

Set Implicit Arguments.

(** ** JavaScript values

    Values of type [unknown] or [any] in the source (results, errors,
    request parameters, prover replies).  [JObj] lists the own properties in
    the object's property order.  A number is a rational: every finite
    double is one, and JSON has no NaN or infinity. *)

#[warnings="-register-all"] Inductive jsvalue : Type :=
| JUndefined
| JNull
| JBool (b : bool)
| JNum (q : Q)
| JStr (s : string)
| JArr (items : list jsvalue)
| JObj (fields : list (string * jsvalue)).

(** ToBoolean. *)
Definition truthy (v : jsvalue) : bool :=
  match v with
  | JUndefined | JNull => false
  | JBool b => b
  | JNum q => negb (Qeq_bool q (inject_Z 0))
  | JStr s => negb (s =? "")
  | JArr _ | JObj _ => true
  end.

(** [a ?? b]. *)
Definition nullish_coalesce (a b : jsvalue) : jsvalue :=
  match a with
  | JUndefined | JNull => b
  | _ => a
  end.

(** ToBoolean of an optional string field: [undefined] and [""] are falsy. *)
Definition truthy_string (o : option string) : bool :=
  match o with
  | Some s => negb (s =? "")
  | None => false
  end.

(** [Array.prototype.includes] on an array of strings. *)
Definition includes (l : list string) (x : string) : bool :=
  existsb (String.eqb x) l.

(** [arr.includes(x)] where [x] may be [undefined]: an array of strings
    holds no [undefined]. *)
Definition includes_opt (l : list string) (x : option string) : bool :=
  match x with
  | Some s => includes l s
  | None => false
  end.

(** ** Exceptions and the synchronous layer *)

Inductive exn : Type :=
| JsError (message : string)                 (* new Error(message) *)
| JsTypeError                                (* raised by the engine *)
| RpcError (message code data : jsvalue)     (* new RpcError(message, code, data) *)
| Foreign (description : string).            (* raised by a library or by the network *)

Inductive completion (A : Type) : Type :=
| Ok (a : A)
| Err (e : exn).

Arguments Ok {A} a.
Arguments Err {A} e.

Definition bindR {A B} (c : completion A) (k : A -> completion B) : completion B :=
  match c with
  | Ok a => k a
  | Err e => Err e
  end.

Notation "x <~ c ;; k" := (bindR c (fun x => k))
  (at level 61, c at next level, right associativity).

(** [try { body } catch (e) { handler e }]. *)
Definition try_catch {A} (body : completion A) (handler : exn -> completion A) : completion A :=
  match body with
  | Ok a => Ok a
  | Err e => handler e
  end.

(** [Array.prototype.map] with a callback that can throw. *)
Fixpoint mapR {A B} (f : A -> completion B) (l : list A) : completion (list B) :=
  match l with
  | [] => Ok []
  | x :: l' => y <~ f x ;; ys <~ mapR f l' ;; Ok (y :: ys)
  end.

(** [Array.prototype.every((x, index) => ...)], from index [i] on: stops at
    the first [false] and at the first exception. *)
Fixpoint every_from {A} (f : A -> nat -> completion bool) (i : nat) (l : list A) : completion bool :=
  match l with
  | [] => Ok true
  | x :: l' => b <~ f x i ;; if b then every_from f (S i) l' else Ok false
  end.

(** ** Data model *)

Record Attestation : Type := {
  signature : option string;
  signatures : option (list string);
  signatureFormat : string;
  hashAlgo : string;
  msg : option string;
  msgs : option (list string);
  identity : option string   (* declared [string]; the code tests for its absence *)
}.

Definition set_identity (a : Attestation) (i : option string) : Attestation :=
  {| signature := signature a; signatures := signatures a;
     signatureFormat := signatureFormat a; hashAlgo := hashAlgo a;
     msg := msg a; msgs := msgs a; identity := i |}.

(** [JsonRpcResponse & { attestations }].  An absent [result] or [error] is
    [JUndefined]. *)
Record AttestedJsonRpcResponse : Type := {
  result : jsvalue;
  error : jsvalue;
  attestations : list Attestation
}.

(** What [response.json()] is typed as: [JsonRpcResponse | JsonRpcResponse[]]. *)
Inductive Body : Type :=
| BodySingle (r : AttestedJsonRpcResponse)
| BodyBatch (rs : list AttestedJsonRpcResponse).

Record JsonRpcRequest : Type := {
  id : Z;
  method : string;
  params : list jsvalue
}.

(** The two ways the code calls [fetch]: a plain GET, and a POST of a
    JSON-RPC request. *)
Inductive fetch_call : Type :=
| Get (url : string)
| Post (url : string) (body : JsonRpcRequest).

Record HttpResponse : Type := {
  ok : bool;
  status : Z;
  text : completion string;     (* await response.text() *)
  json : completion Body        (* await response.json() *)
}.

(** An sshpk key, as far as the code reads it: [key.type] and
    [key.part.A.data]. *)
Record Key : Type := {
  type : string;
  part_A_data : list byte
}.

(** ** The runtime: imported libraries and the network *)

Record Runtime : Type := {
  (* JSON.stringify(v): a string, or undefined *)
  JSON_stringify : jsvalue -> option string;
  (* crypto.createHash("sha256").update(s).digest("hex") *)
  sha256_hex : option string -> completion string;
  (* Buffer.from(s, "hex"); the argument is undefined when the code reads
     past the end of [signatures] *)
  Buffer_from_hex : option string -> completion (list byte);
  (* nacl.sign.detached.verify(msg, sig, publicKey) *)
  nacl_sign_detached_verify : list byte -> list byte -> list byte -> completion bool;
  (* sshpk.parseKey(text, "ssh") *)
  sshpk_parseKey : string -> completion Key;
  (* parseInt(chunk, 16) stored into a Uint8Array *)
  parseInt16_u8 : string -> byte;
  (* the text of a number in a template literal *)
  Number_toString : Z -> string;
  (* @ethereumjs/trie *)
  Trie : Type;
  Trie_new : list byte -> completion Trie;                  (* new Trie({root, useKeyHashing: true}) *)
  Trie_updateFromProof : Trie -> list (list byte) -> completion Trie;
  Trie_get : Trie -> list byte -> bool -> completion (option (list byte));
  (* the network and the clock *)
  World : Type;
  fetch : World -> fetch_call -> completion HttpResponse * World;
  Date_now : World -> Z
}.

(** ** Configuration: the fields of [StatelessRpcClient] *)

Record StatelessRpcClient : Type := {
  rpcUrl : string;
  identities : list string;
  minimumRequiredAttestations : Z;   (* declared [number]; any integer *)
  proverUrl : option string          (* string | null *)
}.

(** The constructor, with its two default parameters. *)
Definition constructor (rpcUrl : string) (identities : list string)
    (minimumRequiredAttestations : option Z) (proverUrl : option (option string))
    : StatelessRpcClient :=
  {| rpcUrl := rpcUrl;
     identities := identities;
     minimumRequiredAttestations :=
       match minimumRequiredAttestations with Some t => t | None => 1%Z end;
     proverUrl :=
       match proverUrl with Some p => p | None => None end |}.

Section Sync.

Variable rt : Runtime.

(** ** [verifySignature] (lines 211-231)

    [hashAlgo] is received and not used.  The [console.error] of the handler
    is not modelled. *)
Definition verifySignature (msgHash : string) (signature : option string)
    (publicKey : list byte) (hashAlgo : string) : completion bool :=
  try_catch
    (signatureBytes <~ Buffer_from_hex rt signature ;;
     let signatureUint8Array := signatureBytes in
     msgHashBytes <~ Buffer_from_hex rt (Some msgHash) ;;
     nacl_sign_detached_verify rt msgHashBytes signatureUint8Array publicKey)
    (fun _ => Ok false).

(** ** [verifyAttestation] (lines 170-209) *)

(** [attestation.msgs && attestation.msgs.length > 0 && attestation.signatures] *)
Definition batch_mode (attestation : Attestation) : bool :=
  match msgs attestation with
  | Some ms =>
      (0 <? List.length ms)%nat &&
      match signatures attestation with Some _ => true | None => false end
  | None => false
  end.

(** [attestation.msg && attestation.signature] *)
Definition single_mode (attestation : Attestation) : bool :=
  truthy_string (msg attestation) && truthy_string (signature attestation).

Definition verifyAttestation (attestation : Attestation) (publicKey : list byte)
    (contentHashes : list string) : completion bool :=
  if batch_mode attestation then
    let isSubset :=
      forallb (fun hash =>
                 match msgs attestation with
                 | Some ms => includes ms hash
                 | None => false
                 end) contentHashes in
    if negb isSubset then Ok false
    else
      every_from
        (fun msg index =>
           match signatures attestation with
           | None => Ok false
           | Some sigs =>
               verifySignature msg (nth_error sigs index) publicKey (hashAlgo attestation)
           end)
        0
        (match msgs attestation with Some ms => ms | None => [] end)
  else if single_mode attestation then
    match msg attestation with
    | Some m =>
        let isHashInResult := includes contentHashes m in
        if isHashInResult
        then verifySignature m (signature attestation) publicKey (hashAlgo attestation)
        else Ok false
    | None => Ok false
    end
  else Ok false.

(** ** [hashContent] (lines 155-168) *)
Definition hashContent (content : jsvalue) : completion (list string) :=
  match content with
  | JArr items =>
      mapR (fun item =>
              let stringifiedItem := JSON_stringify rt item in
              sha256_hex rt stringifiedItem) items
  | _ =>
      let contentString := JSON_stringify rt content in
      h <~ sha256_hex rt contentString ;; Ok [h]
  end.

End Sync.

(** ** Reading properties of JavaScript values *)

Fixpoint lookup (k : string) (fields : list (string * jsvalue)) : jsvalue :=
  match fields with
  | [] => JUndefined
  | (k', v) :: fields' => if k =? k' then v else lookup k fields'
  end.

(** [v.k] for a [v] that is not [null] or [undefined].  The code reads only
    names that no built-in prototype defines ([message], [code], [data],
    [stateRoot], [accessList], [address], [storageKeys], [accountProof],
    [storageProof], [storageHash], [proof]), so only an object can hold
    them. *)
Definition get_property (v : jsvalue) (k : string) : jsvalue :=
  match v with
  | JObj fields => lookup k fields
  | _ => JUndefined
  end.

(** [v.k], or [const { k } = v]: a TypeError on [null] and [undefined]. *)
Definition read_property (v : jsvalue) (k : string) : completion jsvalue :=
  match v with
  | JUndefined | JNull => Err JsTypeError
  | _ => Ok (get_property v k)
  end.

Definition show_nat (n : nat) : string := NilZero.string_of_uint (Nat.to_uint n).
Definition show_Z (z : Z) : string := NilZero.string_of_int (Z.to_int z).

Fixpoint chars (s : string) : list jsvalue :=
  match s with
  | EmptyString => []
  | String a s' => JStr (String a EmptyString) :: chars s'
  end.

(** [v[i]]. *)
Definition read_index (v : jsvalue) (i : nat) : completion jsvalue :=
  match v with
  | JUndefined | JNull => Err JsTypeError
  | JArr items => Ok (nth i items JUndefined)
  | JStr s => Ok (nth i (chars s) JUndefined)
  | JObj fields => Ok (lookup (show_nat i) fields)
  | JBool _ | JNum _ => Ok JUndefined
  end.

(** The elements [v[0], ..., v[v.length - 1]] of an array, as the storage-key
    loop visits them.  The source declares the value an [Array<string>]; the
    model is exact for arrays, strings, numbers, booleans, [null],
    [undefined] and objects without a [length] property. *)
Definition array_elements (v : jsvalue) : completion (list jsvalue) :=
  match v with
  | JUndefined | JNull => Err JsTypeError
  | JArr items => Ok items
  | JStr s => Ok (chars s)
  | JBool _ | JNum _ | JObj _ => Ok []
  end.

(** [v.map(f)]: only an array has a [map] method. *)
Definition array_map {B} (v : jsvalue) (f : jsvalue -> completion B) : completion (list B) :=
  match v with
  | JArr items => mapR f items
  | _ => Err JsTypeError
  end.

Fixpoint indexed_from (i : nat) (l : list jsvalue) : list (string * jsvalue) :=
  match l with
  | [] => []
  | v :: l' => (show_nat i, v) :: indexed_from (S i) l'
  end.

(** [Object.entries(v)]. *)
Definition Object_entries (v : jsvalue) : completion (list (string * jsvalue)) :=
  match v with
  | JUndefined | JNull => Err JsTypeError
  | JObj fields => Ok fields
  | JArr items => Ok (indexed_from 0 items)
  | JStr s => Ok (indexed_from 0 (chars s))
  | JBool _ | JNum _ => Ok []
  end.

Definition is_undefined (v : jsvalue) : bool :=
  match v with
  | JUndefined => true
  | _ => false
  end.

(** [extractDefinedProperties] (lines 340-346). *)
Definition extractDefinedProperties (obj : jsvalue) : completion jsvalue :=
  entries <~ Object_entries obj ;;
  Ok (JObj (filter (fun kv => negb (is_undefined (snd kv))) entries)).

(** The matches of [/.{1,2}/g]: runs of at most two characters, none of
    them a line terminator.  Strings are sequences of 8-bit characters, so
    the line terminators are LF and CR. *)
Definition is_line_terminator (a : ascii) : bool :=
  (a =? "010")%char || (a =? "013")%char.

Fixpoint match_pairs (s : string) : list string :=
  match s with
  | EmptyString => []
  | String a rest =>
      if is_line_terminator a then match_pairs rest
      else
        match rest with
        | EmptyString => [String a EmptyString]
        | String b rest' =>
            if is_line_terminator b then String a EmptyString :: match_pairs rest'
            else String a (String b EmptyString) :: match_pairs rest'
        end
  end.

Section Hex.

Variable rt : Runtime.

(** [fromHexString] (lines 348-355).  A value that is not a string has no
    [startsWith] method. *)
Definition fromHexString (hexString : jsvalue) : completion (list byte) :=
  match hexString with
  | JStr s =>
      let s := if prefix "0x" s then substring 2 (String.length s - 2) s else s in
      Ok (map (parseInt16_u8 rt) (match_pairs s))
  | _ => Err JsTypeError
  end.

End Hex.

(** Line 112: the content a pass hashes, [response.result ?? response.error]. *)
Definition attested_content (response : AttestedJsonRpcResponse) : jsvalue :=
  nullish_coalesce (result response) (error response).

(** The exception of lines 93-95. *)
Definition threshold_error (rt : Runtime) (this : StatelessRpcClient) : exn :=
  JsError ("Request did not meet the attestation threshold of "
           ++ Number_toString rt (minimumRequiredAttestations this) ++ ".")%string.

(** The exception of lines 99-103, and of lines 330-334 in [sendToProver]. *)
Definition rpc_error (response : AttestedJsonRpcResponse) : exn :=
  RpcError (get_property (error response) "message")
           (get_property (error response) "code")
           (get_property (error response) "data").

(** ** The asynchronous layer

    A [machine] is the state of the outside world together with the list of
    [fetch] calls made so far, oldest first.  An [async] function is a
    computation in [M]; [await] is [bindM]. *)

Section Async.

Variable rt : Runtime.

Record machine : Type := {
  world : World rt;
  trace : list fetch_call
}.

Definition M (A : Type) : Type := machine -> completion A * machine.

Definition ret {A} (a : A) : M A := fun s => (Ok a, s).

Definition throw {A} (e : exn) : M A := fun s => (Err e, s).

Definition bindM {A B} (c : M A) (k : A -> M B) : M B :=
  fun s =>
    match c s with
    | (Ok a, s') => k a s'
    | (Err e, s') => (Err e, s')
    end.

(** A synchronous computation run inside an [async] function. *)
Definition lift {A} (r : completion A) : M A := fun s => (r, s).

(** [try { x = await c } catch (error) { ... }]: the outcome of [c], reified. *)
Definition attempt {A} (c : M A) : M (completion A) :=
  fun s => let (r, s') := c s in (Ok r, s').

Notation "x <- c ;; k" := (bindM c (fun x => k))
  (at level 61, c at next level, right associativity).

(** [await fetch(...)]. *)
Definition do_fetch (call : fetch_call) : M HttpResponse :=
  fun s =>
    let (r, w) := fetch rt (world s) call in
    (r, {| world := w; trace := trace s ++ [call] |}).

(** [Date.now()]. *)
Definition now : M Z := fun s => (Ok (Date_now rt (world s)), s).

(** ** [sendJsonRpcRequest] (lines 393-410) *)
Definition sendJsonRpcRequest (url : string) (request : JsonRpcRequest) : M Body :=
  response <- do_fetch (Post url request) ;;
  if negb (ok response)
  then throw (JsError ("HTTP error! status: " ++ show_Z (status response))%string)
  else lift (json response).

(** ** [publicKeyFromIdentity] (lines 233-242) *)
Definition publicKeyFromIdentity (identity : string) : M string :=
  let url := (identity ++ "/.well-known/stateless-key")%string in
  response <- do_fetch (Get url) ;;
  if negb (status response =? 200)%Z
  then throw (JsError ("Could not fetch public key from " ++ url)%string)
  else lift (text response).

Variable this : StatelessRpcClient.

(** ** [verifyAttestations] (lines 109-153) *)

(** Lines 118-120: the positional fallback. *)
Definition assign_identity (i : nat) (attestation : Attestation) : Attestation :=
  if negb (truthy_string (identity attestation))
  then set_identity attestation (nth_error (identities this) i)
  else attestation.

(** One iteration of the [for] loop (lines 118-149) on the attestation at
    index [i]; the value is [validAttestations] after the iteration. *)
Definition verifyAttestations_body (contentHashes : list string)
    (validAttestations : list Attestation) (i : nat) (attestation : Attestation)
    : M (list Attestation) :=
  let attestation := assign_identity i attestation in
  match identity attestation with
  | None => ret validAttestations                       (* includes(undefined): continue *)
  | Some identity =>
      if negb (includes (identities this) identity) then ret validAttestations   (* continue *)
      else
        fetched <- attempt (publicKeyFromIdentity identity) ;;
        match fetched with
        | Err _ => ret validAttestations                (* catch: continue *)
        | Ok sshPublicKey =>
            key <- lift (sshpk_parseKey rt sshPublicKey) ;;
            if negb (type key =? "ed25519")
            then throw (JsError "The provided key is not an ed25519 key")
            else
              let publicKeyUint8Array := part_A_data key in
              isValid <- lift (verifyAttestation rt attestation publicKeyUint8Array contentHashes) ;;
              if isValid
              then ret (validAttestations ++ [attestation])
              else ret validAttestations
        end
  end.

(** How a pass over the attestations ends: the array [validAttestations] as
    it stands at that point, and the exception that ended the pass, if one
    did. *)
Record pass_exit : Type := {
  validAttestations_at_exit : list Attestation;
  thrown : option exn
}.

Fixpoint verifyAttestations_loop (contentHashes : list string) (i : nat)
    (rest : list Attestation) (validAttestations : list Attestation) (s : machine)
    : pass_exit * machine :=
  match rest with
  | [] => ({| validAttestations_at_exit := validAttestations; thrown := None |}, s)
  | attestation :: rest' =>
      match verifyAttestations_body contentHashes validAttestations i attestation s with
      | (Ok validAttestations', s') =>
          verifyAttestations_loop contentHashes (S i) rest' validAttestations' s'
      | (Err e, s') =>
          ({| validAttestations_at_exit := validAttestations; thrown := Some e |}, s')
      end
  end.

(** Lines 112-150. *)
Definition verifyAttestations_pass (response : AttestedJsonRpcResponse) (s : machine)
    : pass_exit * machine :=
  let content := attested_content response in
  match hashContent rt content with
  | Err e => ({| validAttestations_at_exit := []; thrown := Some e |}, s)
  | Ok contentHashes =>
      verifyAttestations_loop contentHashes 0 (attestations response) [] s
  end.

Definition verifyAttestations (response : AttestedJsonRpcResponse) : M bool :=
  fun s =>
    let (exit, s') := verifyAttestations_pass response s in
    match thrown exit with
    | Some e => (Err e, s')
    | None =>
        (Ok (minimumRequiredAttestations this
               <=? Z.of_nat (List.length (validAttestations_at_exit exit)))%Z, s')
    end.

(** The number of attestations judged valid by a pass. *)
Definition valid_count (response : AttestedJsonRpcResponse) (s : machine) : nat :=
  List.length (validAttestations_at_exit (fst (verifyAttestations_pass response s))).

(** ** [sendToProver] (lines 313-338) *)
Definition sendToProver (method : string) (params : list jsvalue) : M jsvalue :=
  match proverUrl this with
  | Some url =>
      if negb (truthy_string (Some url)) then throw (JsError "Prover URL is not set")
      else
        id <- now ;;
        response <- sendJsonRpcRequest url {| id := id; method := method; params := params |} ;;
        match response with
        | BodyBatch _ =>
            throw (JsError "Unexpected batch response for single request to prover")
        | BodySingle response =>
            if truthy (error response)
            then throw (rpc_error response)
            else ret (result response)
        end
  | None => throw (JsError "Prover URL is not set")
  end.

(** ** [verifyStatelessProof] (lines 244-311) *)

(** The loop of lines 298-310, over the storage keys from index [i] on. *)
Fixpoint verify_storage (storageProof : jsvalue) (i : nat) (storageKeys : list jsvalue)
    (storageTrie : Trie rt) : M unit :=
  match storageKeys with
  | [] => ret tt
  | storageKey :: storageKeys' =>
      proofBuffer <- lift (entry <~ read_index storageProof i ;;
                           proof <~ read_property entry "proof" ;;
                           array_map proof (fromHexString rt)) ;;
      storageTrie <- lift (Trie_updateFromProof rt storageTrie proofBuffer) ;;
      storageVal <- lift (key <~ fromHexString rt storageKey ;;
                          Trie_get rt storageTrie key false) ;;
      match storageVal with
      | None => throw (JsError "Storage value not found")
      | Some _ => verify_storage storageProof (S i) storageKeys' storageTrie
      end
  end.

Definition verifyStatelessProof (params : jsvalue) : M unit :=
  if negb (truthy_string (proverUrl this)) then throw (JsError "Prover URL is not set")
  else
    latestBlockNumber <- sendToProver "eth_blockNumber" [] ;;
    block <- sendToProver "eth_getBlockByNumber" [latestBlockNumber; JBool false] ;;
    stateRootHex <- lift (read_property block "stateRoot") ;;
    stateRoot <- lift (fromHexString rt stateRootHex) ;;
    createAccessListParams <-
      lift (match params with
            | JArr items => let firstParam := nth 0 items JUndefined in
                            extractDefinedProperties firstParam
            | _ => extractDefinedProperties params
            end) ;;
    created <- sendToProver "eth_createAccessList" [createAccessListParams] ;;
    accessList <- lift (read_property created "accessList") ;;
    first <- lift (read_index accessList 0) ;;
    address <- lift (read_property first "address") ;;
    storageKeys <- lift (read_property first "storageKeys") ;;
    proved <- sendToProver "eth_getProof" [address; storageKeys; latestBlockNumber] ;;
    accountProof <- lift (read_property proved "accountProof") ;;
    storageProof <- lift (read_property proved "storageProof") ;;
    storageHashHex <- lift (read_property proved "storageHash") ;;
    storageHash <- lift (fromHexString rt storageHashHex) ;;
    (* verify state trie *)
    trie <- lift (Trie_new rt stateRoot) ;;
    nodes <- lift (array_map accountProof (fromHexString rt)) ;;
    trie <- lift (Trie_updateFromProof rt trie nodes) ;;
    accessListAddress <- lift (fromHexString rt address) ;;
    val <- lift (Trie_get rt trie accessListAddress true) ;;
    match val with
    | None => throw (JsError "Account not found in state trie")
    | Some _ =>
        (* verify storage trie *)
        storageTrie <- lift (Trie_new rt storageHash) ;;
        keys <- lift (array_elements storageKeys) ;;
        verify_storage storageProof 0 keys storageTrie
    end.

(** ** [request] (lines 66-107) *)

(** Lines 84-106: what [request] does with the body it received. *)
Definition release (response : Body) : M jsvalue :=
  match response with
  | BodyBatch _ => throw (JsError "Unexpected batch response for single request")
  | BodySingle attestedResponse =>
      isValid <- verifyAttestations attestedResponse ;;
      if negb isValid
      then throw (threshold_error rt this)
      else if truthy (error attestedResponse)
      then throw (rpc_error attestedResponse)
      else ret (result attestedResponse)
  end.

(** Lines 77-106: the request to the main endpoint and the checks on its
    response. *)
Definition attested_request (method : string) (params : list jsvalue) : M jsvalue :=
  id <- now ;;
  response <- sendJsonRpcRequest (rpcUrl this)
                {| id := id; method := method; params := params |} ;;
  release response.

(** Line 73: [this.proverUrl && method === "eth_call"]. *)
Definition proof_required (method : string) : bool :=
  truthy_string (proverUrl this) && (method =? "eth_call").

Definition request (method : string) (params : list jsvalue) : M jsvalue :=
  _ <- (if proof_required method
        then verifyStatelessProof (JArr params)
        else ret tt) ;;
  attested_request method params.

End Async.

(** ** [createStatelessTransport] (lines 358-391) *)

Module Config.

Record StatelessClientConfig : Type := {
  rpcUrl : string;
  identities : list string;
  minimumRequiredAttestations : option Z;
  proverUrl : option string
}.

End Config.

(** The client the transport forwards every request to. *)
Definition createStatelessTransport (config : Config.StatelessClientConfig)
    : StatelessRpcClient :=
  let minimumRequiredAttestations :=
    match Config.minimumRequiredAttestations config with Some t => t | None => 1%Z end in
  let proverUrl := Config.proverUrl config in
  constructor (Config.rpcUrl config) (Config.identities config)
              (Some minimumRequiredAttestations) (Some proverUrl).

(** ** The claims of the specification that the code does not meet as
    stated, as predicates on inputs *)

(** "Verification succeeds if and only if the number of attestations judged
    valid is at least the threshold." *)
Definition threshold_claim (rt : Runtime) (this : StatelessRpcClient)
    (response : AttestedJsonRpcResponse) (s : machine rt) : Prop :=
  fst (verifyAttestations this response s) = Ok true <->
  (minimumRequiredAttestations this <= Z.of_nat (valid_count this response s))%Z.

(** The verdict the specification gives for an attestation that carries
    [msgs] and [signatures]. *)
Definition batch_verdict (rt : Runtime) (attestation : Attestation)
    (publicKey : list byte) (contentHashes : list string)
    (ms sigs : list string) : Prop :=
  verifyAttestation rt attestation publicKey contentHashes = Ok true <->
  (forall hash, In hash contentHashes -> In hash ms) /\
  (forall index m, nth_error ms index = Some m ->
     verifySignature rt m (nth_error sigs index) publicKey (hashAlgo attestation) = Ok true).

(** "For every attestation carrying msgs and signatures, the attestation is
    judged valid if and only if ..." *)
Definition batch_claim (rt : Runtime) (attestation : Attestation)
    (publicKey : list byte) (contentHashes : list string) : Prop :=
  forall ms sigs,
    msgs attestation = Some ms -> signatures attestation = Some sigs ->
    batch_verdict rt attestation publicKey contentHashes ms sigs.

(** The resolver of the specification fails: the lookup of the key throws,
    or the text it returns does not parse as a key. *)
Definition resolution_fails (rt : Runtime) (idn : string) (s s1 : machine rt) : Prop :=
  (exists e, publicKeyFromIdentity idn s = (Err e, s1)) \/
  (exists sshPublicKey e,
     publicKeyFromIdentity idn s = (Ok sshPublicKey, s1) /\
     sshpk_parseKey rt sshPublicKey = Err e).

(** "A failure to resolve an identity's public key causes only that one
    attestation to be skipped": the loop goes on with the remaining
    attestations. *)
Definition resolution_failure_claim (rt : Runtime) (this : StatelessRpcClient)
    (contentHashes : list string) (i : nat) (attestation : Attestation)
    (rest validAttestations : list Attestation) (s s1 : machine rt) : Prop :=
  forall idn,
    identity (assign_identity this i attestation) = Some idn ->
    includes (identities this) idn = true ->
    resolution_fails idn s s1 ->
    verifyAttestations_loop this contentHashes i (attestation :: rest) validAttestations s
    = verifyAttestations_loop this contentHashes (S i) rest validAttestations s1.

(** "For every response that carries an error object, request first runs
    attestation verification over that error content; the RPC error is
    raised only when the threshold is met, and when it is not met request
    fails with the threshold error."  The response is the one [request]
    received, [s] the state in which it received it. *)
Definition error_response_claim (rt : Runtime) (this : StatelessRpcClient)
    (response : AttestedJsonRpcResponse) (s : machine rt) : Prop :=
  truthy (error response) = true ->
  attested_content response = error response /\
  (fst (release this (BodySingle response) s) = Err (rpc_error response) ->
   (minimumRequiredAttestations this <= Z.of_nat (valid_count this response s))%Z) /\
  ((Z.of_nat (valid_count this response s) < minimumRequiredAttestations this)%Z ->
   fst (release this (BodySingle response) s) = Err (threshold_error rt this)).

(** "For a non-positive threshold attestation verification succeeds for
    every response." *)
Definition nonpositive_threshold_claim (rt : Runtime) (this : StatelessRpcClient)
    (response : AttestedJsonRpcResponse) (s : machine rt) : Prop :=
  (minimumRequiredAttestations this <= 0)%Z ->
  fst (verifyAttestations this response s) = Ok true.

(** A prover URL is configured: [this.proverUrl] is a non-empty string. *)
Definition prover_configured (this : StatelessRpcClient) : Prop :=
  exists url, proverUrl this = Some url /\ url <> "".

(** The JSON-RPC methods [verifyStatelessProof] sends. *)
Definition prover_methods : list string :=
  ["eth_blockNumber"; "eth_getBlockByNumber"; "eth_createAccessList"; "eth_getProof"].

(** A [fetch] made by [sendToProver]: a POST to the prover URL of one of the
    prover methods. *)
Definition prover_call (this : StatelessRpcClient) (call : fetch_call) : Prop :=
  match call with
  | Post url body => proverUrl this = Some url /\ In (method body) prover_methods
  | Get _ => False
  end.

(** [call] is a POST of the JSON-RPC method [name]. *)
Definition carries (name : string) (call : fetch_call) : Prop :=
  match call with
  | Post _ body => method body = name
  | Get _ => False
  end.

(** A [fetch] made by [publicKeyFromIdentity] for an allow-listed identity. *)
Definition key_lookup (this : StatelessRpcClient) (call : fetch_call) : Prop :=
  match call with
  | Get url =>
      exists identity,
        In identity (identities this) /\
        url = (identity ++ "/.well-known/stateless-key")%string
  | Post _ _ => False
  end.

(** [s'] is [s] after some more fetches, all of them satisfying [P]. *)
Definition calls_only (rt : Runtime) (P : fetch_call -> Prop) (s s' : machine rt) : Prop :=
  exists calls, trace s' = trace s ++ calls /\ Forall P calls.

(** Every run of [c] makes only fetches that satisfy [P]. *)
Definition makes_only (rt : Runtime) (P : fetch_call -> Prop) {A} (c : M rt A) : Prop :=
  forall s, calls_only P s (snd (c s)).

(** [s'] is [s] after some more fetches, all of them calls to the prover. *)
Definition only_prover_calls (rt : Runtime) (this : StatelessRpcClient)
    (s s' : machine rt) : Prop :=
  calls_only (prover_call this) s s'.

(** ** A test double of the runtime

    The scenarios below (counterexamples and instances of the theorems) run
    on a small runtime that answers like the real libraries on the inputs
    the scenarios use: the SHA-256 digests are those of the JSON texts
    hashed, the Ed25519 signatures were made with the key pair whose public
    key [attestor-a] serves, and [Buffer.from(_, "hex")] decodes as Node
    does.  Outside those inputs the double refuses to answer. *)

Module Demo.

Definition dquote : string := String (ascii_of_nat 34) EmptyString.

(** JSON text of a value, for values whose strings need no escape and whose
    numbers are integers. *)
Fixpoint stringify_value (v : jsvalue) : string :=
  match v with
  | JUndefined | JNull => "null"
  | JBool true => "true"
  | JBool false => "false"
  | JNum q => show_Z (Qnum q)
  | JStr s => dquote ++ s ++ dquote
  | JArr items => "[" ++ String.concat "," (map stringify_value items) ++ "]"
  | JObj fields =>
      "{" ++ String.concat ","
               (flat_map (fun kv =>
                            if is_undefined (snd kv) then []
                            else [dquote ++ fst kv ++ dquote ++ ":" ++ stringify_value (snd kv)])
                         fields) ++ "}"
  end%string.

Definition stringify (v : jsvalue) : option string :=
  match v with
  | JUndefined => None
  | _ => Some (stringify_value v)
  end.

(** The JSON text of the error object [reverted] below. *)
Definition reverted_text : string :=
  ("{" ++ dquote ++ "code" ++ dquote ++ ":-32000,"
       ++ dquote ++ "message" ++ dquote ++ ":" ++ dquote ++ "execution reverted" ++ dquote
       ++ "}")%string.

(** SHA-256 of the JSON texts ["0x1"] and ["0x2"] (with their quotes) and of
    [reverted_text]. *)
Definition digest_0x1 : string :=
  "32d74fe09a60fb247229b49f6dfc2a06ba10e72cb813e62e8852415654381784".
Definition digest_0x2 : string :=
  "7abf5ed3c2a1483253938b48b720e86cff4b6e47f3a4ae8bdcd5d941ff6f38a7".
Definition digest_reverted : string :=
  "666b30341e218735173cce5e12104a6c39525e18cfdac0b0a0c9204de1eeeb71".

Definition sha256 (data : option string) : completion string :=
  match data with
  | None => Err JsTypeError
  | Some s =>
      if s =? (dquote ++ "0x1" ++ dquote) then Ok digest_0x1
      else if s =? (dquote ++ "0x2" ++ dquote) then Ok digest_0x2
      else if s =? reverted_text then Ok digest_reverted
      else Err (Foreign "sha256: text outside the table")
  end%string.

Definition hex_value (a : ascii) : option N :=
  let n := N_of_ascii a in
  if (48 <=? n)%N && (n <=? 57)%N then Some (n - 48)%N
  else if (97 <=? n)%N && (n <=? 102)%N then Some (n - 87)%N
  else if (65 <=? n)%N && (n <=? 70)%N then Some (n - 55)%N
  else None.

(** [Buffer.from(s, "hex")]: pairs of hex digits, up to the first pair that
    is not one. *)
Fixpoint hex_decode (s : string) : list byte :=
  match s with
  | String a (String b rest) =>
      match hex_value a, hex_value b with
      | Some x, Some y =>
          match Byte.of_N (16 * x + y) with
          | Some c => c :: hex_decode rest
          | None => []
          end
      | _, _ => []
      end
  | _ => []
  end.

Definition buffer_from_hex (s : option string) : completion (list byte) :=
  match s with
  | Some s => Ok (hex_decode s)
  | None => Err JsTypeError
  end.

Fixpoint bytes_eqb (x y : list byte) : bool :=
  match x, y with
  | [], [] => true
  | a :: x', b :: y' => Byte.eqb a b && bytes_eqb x' y'
  | _, _ => false
  end.

(** The Ed25519 public key of [attestor-a], and its signatures of the
    digests above. *)
Definition public_key_hex : string :=
  "00ddb64e35563d9bbc64d11d35beef84068e6d2d5f4b873b18d8eb91124e8c6e".
Definition signature_0x1 : string :=
  "6f1aeccee3d71f8b9ea719c4862608cbad442baacffa819671125a5f85234956747de2f6e7ec13091d6fec33591388d1b6e86971df67c25f58f8050fd3c46603".
Definition signature_0x2 : string :=
  "69d7db90759f09fd730b7036265c73f16c9c8a6748985b0f573e5960afc3b2285badb971265392d31befac103c2afc038b111fe222da8e4160b0834c00228d0e".

Definition signature_reverted : string :=
  "52fc7c97131236a375b90944a9a36b8124041f03d9bb68e3823e66cbcf5add1127c046aa861f3ab826f8d8d1fab95079e6abbb262b47f87cf690fa17ae37cd04".

Definition signed : list (string * string) :=
  [(digest_0x1, signature_0x1); (digest_0x2, signature_0x2);
   (digest_reverted, signature_reverted)].

Definition nacl_verify (m sg pk : list byte) : completion bool :=
  if negb (List.length sg =? 64)%nat then Err (Foreign "bad signature size")
  else if negb (List.length pk =? 32)%nat then Err (Foreign "bad public key size")
  else Ok (bytes_eqb pk (hex_decode public_key_hex) &&
           existsb (fun p => bytes_eqb m (hex_decode (fst p)) &&
                             bytes_eqb sg (hex_decode (snd p))) signed).

Definition attestor_a : string := "https://a.example".
Definition attestor_b : string := "https://b.example".
Definition attestor_c : string := "https://c.example".
Definition prover : string := "https://prover.example".
Definition endpoint : string := "https://rpc.example".

Definition key_text_a : string :=
  "ssh-ed25519 AAAAC3NzaC1lZDI1NTE5AAAAIADdtk41Vj2bvGTRHTW+74QGjm0tX0uHOxjY65ESToxu attestor-a".
Definition key_text_b : string :=
  "ssh-rsa AAAAB3NzaC1yc2EAAAADAQABAAAAgQD8ol+XqAqOCQsK7/bcvB3VSBSPunPvItgvkOzKGVVelz2itqImwcfNGzeG4wyhWZuqMtko9uraRmeR3u9WZGxY4ulPBXqOEpZQRR+58M/cKdWJ7VFRmfxeTJBTsiWqoCMz+jekS7osUh9/uj18M5B1OGwqL55edsw54AeXuUBZfQ== attestor-b".

Definition parse_key (text : string) : completion Key :=
  if text =? key_text_a
  then Ok {| type := "ed25519"; part_A_data := hex_decode public_key_hex |}
  else if text =? key_text_b
  then Ok {| type := "rsa"; part_A_data := [] |}
  else Err (Foreign "KeyParseError").

Definition parse_int16 (chunk : string) : byte :=
  match hex_decode chunk with
  | b :: _ => b
  | [] => x00
  end.

Definition well_known (identity : string) : string :=
  (identity ++ "/.well-known/stateless-key")%string.

(** The network: [attestor-a] serves an ed25519 key and [attestor-b] an RSA
    key, every other key lookup (that of [attestor-c], too) is a 404, the prover is down (503), and every other
    POST is answered with [reply]. *)
Definition network (reply : Body) (w : unit) (call : fetch_call)
    : completion HttpResponse * unit :=
  let page st txt js := (Ok {| ok := (200 <=? st)%Z && (st <? 300)%Z;
                               status := st; text := txt; json := js |}, w) in
  match call with
  | Get url =>
      if url =? well_known attestor_a
      then page 200%Z (Ok key_text_a) (Err (Foreign "SyntaxError"))
      else if url =? well_known attestor_b
      then page 200%Z (Ok key_text_b) (Err (Foreign "SyntaxError"))
      else page 404%Z (Ok "Not Found") (Err (Foreign "SyntaxError"))
  | Post url _ =>
      if url =? prover
      then page 503%Z (Ok "Service Unavailable") (Err (Foreign "SyntaxError"))
      else page 200%Z (Ok "") (Ok reply)
  end.

Definition runtime (reply : Body) : Runtime :=
  {| JSON_stringify := stringify;
     sha256_hex := sha256;
     Buffer_from_hex := buffer_from_hex;
     nacl_sign_detached_verify := nacl_verify;
     sshpk_parseKey := parse_key;
     parseInt16_u8 := parse_int16;
     Number_toString := show_Z;
     Trie := unit;
     Trie_new := fun _ => Ok tt;
     Trie_updateFromProof := fun _ _ => Ok tt;
     Trie_get := fun _ _ _ => Ok None;
     World := unit;
     fetch := network reply;
     Date_now := fun _ => 1700000000000%Z |}.

Definition start (reply : Body) : machine (runtime reply) :=
  {| world := tt : World (runtime reply); trace := [] |}.

(** A second double, in which the prover is up.  It answers the four
    methods of the proof verifier; the account proof it returns is empty
    unless [account_proven].  The trie double keeps the proof nodes it was
    fed and finds a key exactly when it was fed some. *)
Definition prover_result (account_proven : bool) (body : JsonRpcRequest) : jsvalue :=
  if method body =? "eth_blockNumber" then JStr "0x10"
  else if method body =? "eth_getBlockByNumber" then JObj [("stateRoot", JStr "0xaa")]
  else if method body =? "eth_createAccessList" then
    JObj [("accessList",
           JArr [JObj [("address", JStr "0x01"); ("storageKeys", JArr [JStr "0x02"])]])]
  else if method body =? "eth_getProof" then
    JObj [("accountProof", JArr (if account_proven then [JStr "0xf8"] else []));
          ("storageProof", JArr [JObj [("key", JStr "0x02"); ("proof", JArr [JStr "0xe1"])]]);
          ("storageHash", JStr "0xbb")]
  else JNull.

Definition network_with_prover (account_proven : bool) (reply : Body) (w : unit)
    (call : fetch_call) : completion HttpResponse * unit :=
  match call with
  | Post url body =>
      if url =? prover
      then (Ok {| ok := true; status := 200%Z; text := Ok "";
                  json := Ok (BodySingle {| result := prover_result account_proven body;
                                            error := JUndefined;
                                            attestations := [] |}) |}, w)
      else network reply w call
  | Get _ => network reply w call
  end.

Definition proving (account_proven : bool) (reply : Body) : Runtime :=
  {| JSON_stringify := stringify;
     sha256_hex := sha256;
     Buffer_from_hex := buffer_from_hex;
     nacl_sign_detached_verify := nacl_verify;
     sshpk_parseKey := parse_key;
     parseInt16_u8 := parse_int16;
     Number_toString := show_Z;
     Trie := list (list byte);
     Trie_new := fun _ => Ok [];
     Trie_updateFromProof := fun nodes more => Ok (nodes ++ more);
     Trie_get := fun nodes _ _ => Ok (hd_error nodes);
     World := unit;
     fetch := network_with_prover account_proven reply;
     Date_now := fun _ => 1700000000000%Z |}.

(** The machine of that double after the fetches [calls]. *)
Definition proving_after (account_proven : bool) (reply : Body) (calls : list fetch_call)
    : machine (proving account_proven reply) :=
  {| world := tt : World (proving account_proven reply); trace := calls |}.

(** The calls the proof verifier makes for a call to the contract at 0x01. *)
Definition call_object : jsvalue :=
  JObj [("to", JStr "0x01"); ("data", JStr "0x"); ("gas", JUndefined)].

Definition prover_post (method : string) (params : list jsvalue) : fetch_call :=
  Post prover {| id := 1700000000000%Z; method := method; params := params |}.

Definition proof_calls : list fetch_call :=
  [prover_post "eth_blockNumber" [];
   prover_post "eth_getBlockByNumber" [JStr "0x10"; JBool false];
   prover_post "eth_createAccessList" [JObj [("to", JStr "0x01"); ("data", JStr "0x")]];
   prover_post "eth_getProof" [JStr "0x01"; JArr [JStr "0x02"]; JStr "0x10"]].

(** Attestations. *)
Definition blank : Attestation :=
  {| signature := None; signatures := None; signatureFormat := "ssh-ed25519";
     hashAlgo := "sha256"; msg := None; msgs := None; identity := None |}.

(** A single-mode attestation by [who] of the digest of ["0x1"]. *)
Definition single (who : option string) : Attestation :=
  {| signature := Some signature_0x1; signatures := None;
     signatureFormat := "ssh-ed25519"; hashAlgo := "sha256";
     msg := Some digest_0x1; msgs := None; identity := who |}.

(** A batch-mode attestation of the digests of ["0x1"] and ["0x2"]. *)
Definition batch (who : option string) : Attestation :=
  {| signature := None; signatures := Some [signature_0x1; signature_0x2];
     signatureFormat := "ssh-ed25519"; hashAlgo := "sha256";
     msg := None; msgs := Some [digest_0x1; digest_0x2]; identity := who |}.

(** An attestation with [msgs: []] and [signatures: []]. *)
Definition empty_batch (who : option string) : Attestation :=
  {| signature := None; signatures := Some []; signatureFormat := "ssh-ed25519";
     hashAlgo := "sha256"; msg := None; msgs := Some []; identity := who |}.

Definition reverted : jsvalue :=
  JObj [("code", JNum (inject_Z (-32000))); ("message", JStr "execution reverted")].

Definition client (threshold : option Z) (proverUrl : option string) : StatelessRpcClient :=
  constructor endpoint [attestor_a; attestor_b; attestor_c] threshold (Some proverUrl).

(** Responses of the main endpoint. *)
Definition answer (attestations : list Attestation) : AttestedJsonRpcResponse :=
  {| result := JStr "0x1"; error := JUndefined; attestations := attestations |}.

(** A single-mode attestation by [who] of the digest of [reverted]. *)
Definition single_reverted (who : option string) : Attestation :=
  {| signature := Some signature_reverted; signatures := None;
     signatureFormat := "ssh-ed25519"; hashAlgo := "sha256";
     msg := Some digest_reverted; msgs := None; identity := who |}.

(** A response that carries an error and no result. *)
Definition failure (attestations : list Attestation) : AttestedJsonRpcResponse :=
  {| result := JUndefined; error := reverted; attestations := attestations |}.

(** A response that carries both a result and an error. *)
Definition result_and_error (attestations : list Attestation) : AttestedJsonRpcResponse :=
  {| result := JStr "0x1"; error := reverted; attestations := attestations |}.

(** The runtime and the initial machine of a scenario in which the main
    endpoint answers [response]. *)
Definition serving (response : AttestedJsonRpcResponse) : Runtime :=
  runtime (BodySingle response).

Definition boot (response : AttestedJsonRpcResponse) : machine (serving response) :=
  start (BodySingle response).

(** The machine of that scenario after the fetches [calls]. *)
Definition after (response : AttestedJsonRpcResponse) (calls : list fetch_call)
    : machine (serving response) :=
  {| world := tt : World (serving response); trace := calls |}.

Definition public_key : list byte := hex_decode public_key_hex.

(** A runtime for statements that do not touch the network. *)
Definition idle : Runtime := serving (answer []).

End Demo.

(** ** Further definitions, for the properties beyond the claims *)

(** The function [createStatelessTransport] returns (lines 381-389): it
    forwards to [request] of the client built from the configuration. *)
Definition viemCompatibleRequest (rt : Runtime) (config : Config.StatelessClientConfig)
    (method : string) (params : list jsvalue) : M rt jsvalue :=
  request (createStatelessTransport config) method params.

(** An attestation refers to the content: in batch mode its [msgs] hold
    every content digest, otherwise its [msg] is one of them. *)
Definition binds_content (contentHashes : list string) (attestation : Attestation) : Prop :=
  if batch_mode attestation
  then exists ms, msgs attestation = Some ms /\
                  forall hash, In hash contentHashes -> In hash ms
  else exists m, msg attestation = Some m /\ In m contentHashes.

(** The identity of an attestation is on the allow-list. *)
Definition allow_listed (this : StatelessRpcClient) (attestation : Attestation) : Prop :=
  exists idn, identity attestation = Some idn /\ In idn (identities this).

(** No character of [s] is a line terminator. *)
Definition one_line (s : string) : Prop :=
  Forall (fun a => is_line_terminator a = false) (list_ascii_of_string s).

(** A third double: the prover is up and answers [eth_createAccessList]
    with an empty access list, as for a call that touches no account. *)
Module Transfer.

Definition prover_result (body : JsonRpcRequest) : jsvalue :=
  if method body =? "eth_createAccessList" then JObj [("accessList", JArr [])]
  else Demo.prover_result true body.

Definition network (reply : Body) (w : unit) (call : fetch_call)
    : completion HttpResponse * unit :=
  match call with
  | Post url body =>
      if url =? Demo.prover
      then (Ok {| ok := true; status := 200%Z; text := Ok "";
                  json := Ok (BodySingle {| result := prover_result body;
                                            error := JUndefined;
                                            attestations := [] |}) |}, w)
      else Demo.network reply w call
  | Get _ => Demo.network reply w call
  end.

Definition runtime (reply : Body) : Runtime :=
  {| JSON_stringify := Demo.stringify;
     sha256_hex := Demo.sha256;
     Buffer_from_hex := Demo.buffer_from_hex;
     nacl_sign_detached_verify := Demo.nacl_verify;
     sshpk_parseKey := Demo.parse_key;
     parseInt16_u8 := Demo.parse_int16;
     Number_toString := show_Z;
     Trie := list (list byte);
     Trie_new := fun _ => Ok [];
     Trie_updateFromProof := fun nodes more => Ok (nodes ++ more);
     Trie_get := fun nodes _ _ => Ok (hd_error nodes);
     World := unit;
     fetch := network reply;
     Date_now := fun _ => 1700000000000%Z |}.

Definition after (reply : Body) (calls : list fetch_call) : machine (runtime reply) :=
  {| world := tt : World (runtime reply); trace := calls |}.

(** The three calls made before the access list is read. *)
Definition calls : list fetch_call :=
  [Demo.prover_post "eth_blockNumber" [];
   Demo.prover_post "eth_getBlockByNumber" [JStr "0x10"; JBool false];
   Demo.prover_post "eth_createAccessList"
     [JObj [("to", JStr "0x01"); ("data", JStr "0x")]]].

End Transfer.

(** A fourth double: [attestor-c] answers its key lookup with status 200
    and a web page instead of a key. *)
Module Garbled.

Definition page : string := "<!DOCTYPE html><html><body>It works!</body></html>".

Definition network (reply : Body) (w : unit) (call : fetch_call)
    : completion HttpResponse * unit :=
  match call with
  | Get url =>
      if url =? Demo.well_known Demo.attestor_c
      then (Ok {| ok := true; status := 200%Z; text := Ok page;
                  json := Err (Foreign "SyntaxError") |}, w)
      else Demo.network reply w call
  | Post _ _ => Demo.network reply w call
  end.

Definition runtime (reply : Body) : Runtime :=
  {| JSON_stringify := Demo.stringify;
     sha256_hex := Demo.sha256;
     Buffer_from_hex := Demo.buffer_from_hex;
     nacl_sign_detached_verify := Demo.nacl_verify;
     sshpk_parseKey := Demo.parse_key;
     parseInt16_u8 := Demo.parse_int16;
     Number_toString := show_Z;
     Trie := unit;
     Trie_new := fun _ => Ok tt;
     Trie_updateFromProof := fun _ _ => Ok tt;
     Trie_get := fun _ _ _ => Ok None;
     World := unit;
     fetch := network reply;
     Date_now := fun _ => 1700000000000%Z |}.

(** The machine, after the fetches [calls], of a scenario in which the main
    endpoint answers [response]. *)
Definition after (response : AttestedJsonRpcResponse) (calls : list fetch_call)
    : machine (runtime (BodySingle response)) :=
  {| world := tt : World (runtime (BodySingle response)); trace := calls |}.

End Garbled.

(** * Properties *)

(** ** Lists and strings *)

Lemma includes_In (l : list string) (x : string) :
  includes l x = true <-> In x l.
Proof.
  unfold includes. rewrite existsb_exists. split.
  - intros [y [Hy Heq]]. apply String.eqb_eq in Heq. now subst.
  - intros H. exists x. split; [assumption | apply String.eqb_refl].
Qed.

Lemma includes_not_In (l : list string) (x : string) :
  includes l x = false <-> ~ In x l.
Proof.
  rewrite <- includes_In. destruct (includes l x); split; congruence.
Qed.

Lemma truthy_string_Some (s : string) :
  truthy_string (Some s) = true <-> s <> "".
Proof.
  simpl. destruct (String.eqb_spec s ""); simpl; split; congruence.
Qed.

Lemma subset_forallb (ms hashes : list string) :
  forallb (fun hash => includes ms hash) hashes = true <->
  (forall hash, In hash hashes -> In hash ms).
Proof.
  rewrite forallb_forall. split; intros H h Hh; apply includes_In; auto.
Qed.

(** [every] answers [true] exactly when the callback does at every index. *)
Lemma every_from_true {A} (f : A -> nat -> completion bool) (l : list A) :
  forall i,
    every_from f i l = Ok true <->
    (forall j x, nth_error l j = Some x -> f x (i + j)%nat = Ok true).
Proof.
  induction l as [| a l IH]; intros i; simpl.
  - split; [intros _ [| j] x H; discriminate | reflexivity].
  - split.
    + intros H j x Hj. destruct (f a i) as [[|] |] eqn:Ha; simpl in H; try discriminate.
      destruct j as [| j]; simpl in Hj.
      * injection Hj as <-. now rewrite Nat.add_0_r.
      * rewrite Nat.add_succ_r. apply (proj1 (IH (S i)) H j x Hj).
    + intros H. pose proof (H 0%nat a eq_refl) as H0.
      rewrite Nat.add_0_r in H0. rewrite H0; simpl.
      apply IH. intros j x Hj. specialize (H (S j) x Hj).
      now rewrite Nat.add_succ_r in H.
Qed.

(** [every] does not throw when its callback does not. *)
Lemma every_from_total {A} (f : A -> nat -> completion bool) (l : list A) :
  (forall x i, exists b, f x i = Ok b) ->
  forall i, exists b, every_from f i l = Ok b.
Proof.
  intros Hf. induction l as [| a l IH]; intros i; simpl.
  - now exists true.
  - destruct (Hf a i) as [[|] ->]; simpl; [apply IH | now exists false].
Qed.

Section SyncFacts.

Variable rt : Runtime.

Lemma verifySignature_returns msgHash signature publicKey hashAlgo :
  exists b, verifySignature rt msgHash signature publicKey hashAlgo = Ok b.
Proof.
  unfold verifySignature, try_catch, bindR.
  destruct (Buffer_from_hex rt signature); [| now exists false].
  destruct (Buffer_from_hex rt (Some msgHash)); [| now exists false].
  destruct (nacl_sign_detached_verify rt _ _ _) as [b |]; [now exists b | now exists false].
Qed.

Lemma verifyAttestation_returns attestation publicKey contentHashes :
  exists b, verifyAttestation rt attestation publicKey contentHashes = Ok b.
Proof.
  unfold verifyAttestation.
  destruct (batch_mode attestation).
  - destruct (negb _); [now exists false |].
    apply every_from_total. intros m i.
    destruct (signatures attestation); [apply verifySignature_returns | now exists false].
  - destruct (single_mode attestation); [| now exists false].
    destruct (msg attestation); [| now exists false].
    destruct (includes contentHashes s); [apply verifySignature_returns | now exists false].
Qed.

Lemma not_true_is_Ok_false (r : completion bool) :
  (exists b, r = Ok b) -> r <> Ok true -> r = Ok false.
Proof.
  intros [[|] ->] H; [congruence | reflexivity].
Qed.

End SyncFacts.

(** ** Signature verification *)

(** C8.  [verifySignature] returns a boolean on every input and never
    throws, whatever the hex decoder and the signature library do; it
    returns [true] only when both decodings succeeded and the library
    answered [true], so a decoding failure or a library error gives
    [false]. *)
Theorem verifySignature_total (rt : Runtime) (msgHash : string)
    (signature : option string) (publicKey : list byte) (hashAlgo : string) :
  exists b : bool,
    verifySignature rt msgHash signature publicKey hashAlgo = Ok b /\
    (b = true <->
     exists signatureBytes msgHashBytes,
       Buffer_from_hex rt signature = Ok signatureBytes /\
       Buffer_from_hex rt (Some msgHash) = Ok msgHashBytes /\
       nacl_sign_detached_verify rt msgHashBytes signatureBytes publicKey = Ok true).
Proof.
  unfold verifySignature, try_catch, bindR.
  destruct (Buffer_from_hex rt signature) as [sg | e1] eqn:Hs.
  - destruct (Buffer_from_hex rt (Some msgHash)) as [m | e2] eqn:Hm.
    + destruct (nacl_sign_detached_verify rt m sg publicKey) as [b | e3] eqn:Hv.
      * exists b. split; [reflexivity |]. split.
        -- intros ->. now exists sg, m.
        -- intros (sg' & m' & H1 & H2 & H3). congruence.
      * exists false. split; [reflexivity |]. split; [discriminate |].
        intros (sg' & m' & H1 & H2 & H3). congruence.
    + exists false. split; [reflexivity |]. split; [discriminate |].
      intros (sg' & m' & H1 & H2 & H3). congruence.
  - exists false. split; [reflexivity |]. split; [discriminate |].
    intros (sg' & m' & H1 & H2 & H3). congruence.
Qed.

(** ** Judging one attestation *)

(** C3.  An attestation that is not in batch mode and carries a non-empty
    [msg] and a non-empty [signature] is judged valid exactly when [msg] is
    one of the content digests and the signature verifies; when [msg] is not
    one of the content digests it is rejected, whatever the signature. *)
Theorem verifyAttestation_single_mode (rt : Runtime) (attestation : Attestation)
    (publicKey : list byte) (contentHashes : list string) (m s : string) :
  batch_mode attestation = false ->
  msg attestation = Some m -> m <> "" ->
  signature attestation = Some s -> s <> "" ->
  (verifyAttestation rt attestation publicKey contentHashes = Ok true <->
   In m contentHashes /\
   verifySignature rt m (Some s) publicKey (hashAlgo attestation) = Ok true) /\
  (~ In m contentHashes ->
   verifyAttestation rt attestation publicKey contentHashes = Ok false).
Proof.
  intros Hbatch Hm Hm' Hs Hs'.
  assert (Hsingle : single_mode attestation = true).
  { unfold single_mode. rewrite Hm, Hs.
    apply andb_true_intro. split; now apply truthy_string_Some. }
  unfold verifyAttestation. rewrite Hbatch, Hsingle, Hm, Hs. cbv zeta.
  destruct (includes contentHashes m) eqn:Hin.
  - apply includes_In in Hin. split.
    + split; [intros H; now split | now intros [_ H]].
    + intros Hnot. contradiction.
  - apply includes_not_In in Hin. split.
    + split; [discriminate | intros [H _]; contradiction].
    + reflexivity.
Qed.

Lemma verifyAttestation_single_mode_witness :
  verifyAttestation Demo.idle (Demo.single (Some Demo.attestor_a))
    Demo.public_key [Demo.digest_0x1] = Ok true /\
  verifyAttestation Demo.idle (Demo.single (Some Demo.attestor_a))
    Demo.public_key [Demo.digest_0x2] = Ok false.
Proof.
  set (attestation := Demo.single (Some Demo.attestor_a)).
  set (rt := Demo.idle).
  pose proof (@verifyAttestation_single_mode rt attestation Demo.public_key
                [Demo.digest_0x1] Demo.digest_0x1 Demo.signature_0x1
                eq_refl eq_refl ltac:(discriminate) eq_refl ltac:(discriminate))
    as [Hiff _].
  pose proof (@verifyAttestation_single_mode rt attestation Demo.public_key
                [Demo.digest_0x2] Demo.digest_0x1 Demo.signature_0x1
                eq_refl eq_refl ltac:(discriminate) eq_refl ltac:(discriminate))
    as [_ Hrej].
  split.
  - apply Hiff. split; [now left | vm_compute; reflexivity].
  - apply Hrej. intros [H | []]. vm_compute in H. discriminate.
Defined.

(** C2, as stated, fails: an attestation with [msgs: []] and
    [signatures: []] is not judged in batch mode at all (line 177), so it is
    invalid even for an empty content digest set, for which every digest is
    in [msgs] and every pair verifies. *)
Lemma batch_claim_fails_on_empty_msgs :
  ~ batch_claim Demo.idle (Demo.empty_batch (Some Demo.attestor_a)) Demo.public_key [].
Proof.
  intros H. specialize (H [] [] eq_refl eq_refl).
  destruct H as [_ H].
  assert (Hv : verifyAttestation Demo.idle
                 (Demo.empty_batch (Some Demo.attestor_a)) Demo.public_key [] = Ok true).
  { apply H. split.
    - intros hash [].
    - intros [| index] m Hm; discriminate. }
  vm_compute in Hv. discriminate.
Qed.

(** C2, amended.  An attestation that carries a non-empty [msgs] and a
    [signatures] array is judged valid exactly when every content digest
    appears in [msgs] and every message verifies with the signature at its
    index ([undefined] past the end of [signatures]); one failing pair makes
    it invalid. *)
Theorem verifyAttestation_batch_mode (rt : Runtime) (attestation : Attestation)
    (publicKey : list byte) (contentHashes : list string) (ms sigs : list string) :
  msgs attestation = Some ms -> ms <> [] ->
  signatures attestation = Some sigs ->
  batch_verdict rt attestation publicKey contentHashes ms sigs /\
  (forall index m,
     nth_error ms index = Some m ->
     verifySignature rt m (nth_error sigs index) publicKey (hashAlgo attestation) = Ok false ->
     verifyAttestation rt attestation publicKey contentHashes = Ok false).
Proof.
  intros Hms Hne Hsigs.
  assert (Hbatch : batch_mode attestation = true).
  { unfold batch_mode. rewrite Hms, Hsigs. destruct ms; [congruence | reflexivity]. }
  assert (Hverdict : batch_verdict rt attestation publicKey contentHashes ms sigs).
  { unfold batch_verdict, verifyAttestation. rewrite Hbatch, Hms, Hsigs. cbv zeta.
    destruct (forallb (fun hash => includes ms hash) contentHashes) eqn:Hsub; simpl.
    - rewrite every_from_true. pose proof (proj1 (subset_forallb _ _) Hsub) as Hsub'.
      simpl. split; [intros H; now split | now intros [_ H]].
    - split; [discriminate |]. intros [H _].
      pose proof (proj2 (subset_forallb _ _) H) as H'. congruence. }
  split; [exact Hverdict |].
  intros index m Hidx Hfalse.
  apply not_true_is_Ok_false; [apply verifyAttestation_returns |].
  intros Htrue. apply Hverdict in Htrue. destruct Htrue as [_ Hall].
  specialize (Hall index m Hidx). congruence.
Qed.

Lemma verifyAttestation_batch_mode_witness :
  verifyAttestation Demo.idle (Demo.batch (Some Demo.attestor_a))
    Demo.public_key [Demo.digest_0x1] = Ok true.
Proof.
  set (attestation := Demo.batch (Some Demo.attestor_a)).
  set (rt := Demo.idle).
  pose proof (@verifyAttestation_batch_mode rt attestation Demo.public_key
                [Demo.digest_0x1] [Demo.digest_0x1; Demo.digest_0x2]
                [Demo.signature_0x1; Demo.signature_0x2]
                eq_refl ltac:(discriminate) eq_refl)
    as [Hverdict _].
  apply Hverdict. split.
  - intros hash [<- | []]. now left.
  - intros [| [| [| index]]] m Hm; simpl in Hm; try discriminate;
      injection Hm as <-; vm_compute; reflexivity.
Defined.

(** ** One pass over the attestations *)

Section PassFacts.

Variable rt : Runtime.
Variable this : StatelessRpcClient.

Implicit Types (s : machine rt) (attestation : Attestation).

(** The one fetch of a key lookup. *)
Lemma publicKeyFromIdentity_trace (idn : string) (s : machine rt) :
  trace (snd (publicKeyFromIdentity idn s))
  = trace s ++ [Get (idn ++ "/.well-known/stateless-key")%string].
Proof.
  unfold publicKeyFromIdentity, bindM, do_fetch. cbv zeta.
  match goal with
  | |- context [fetch rt (world s) ?call] =>
      destruct (fetch rt (world s) call) as [[response | e] w]; simpl; [| reflexivity]
  end.
  destruct (negb (status response =? 200)%Z); reflexivity.
Qed.

Lemma set_identity_twice attestation (x y : option string) :
  set_identity (set_identity attestation x) y = set_identity attestation y.
Proof. reflexivity. Qed.



Lemma body_skips_unlisted contentHashes valid i attestation s :
  includes_opt (identities this) (identity (assign_identity this i attestation)) = false ->
  verifyAttestations_body this contentHashes valid i attestation s = (Ok valid, s).
Proof.
  unfold verifyAttestations_body. cbv zeta.
  destruct (identity (assign_identity this i attestation)) as [idn |]; simpl.
  - intros ->. reflexivity.
  - reflexivity.
Qed.

(** The iteration on an attestation of an allow-listed identity, after the
    key lookup. *)
Lemma body_listed contentHashes valid i attestation idn s :
  identity (assign_identity this i attestation) = Some idn ->
  includes (identities this) idn = true ->
  verifyAttestations_body this contentHashes valid i attestation s =
  match publicKeyFromIdentity idn s with
  | (Err _, s1) => (Ok valid, s1)
  | (Ok sshPublicKey, s1) =>
      match sshpk_parseKey rt sshPublicKey with
      | Err e => (Err e, s1)
      | Ok key =>
          if negb (type key =? "ed25519")
          then (Err (JsError "The provided key is not an ed25519 key"), s1)
          else
            match verifyAttestation rt (assign_identity this i attestation)
                    (part_A_data key) contentHashes with
            | Ok true => (Ok (valid ++ [assign_identity this i attestation]), s1)
            | Ok false => (Ok valid, s1)
            | Err e => (Err e, s1)
            end
      end
  end.
Proof.
  intros Hid Hin. unfold verifyAttestations_body. cbv zeta.
  rewrite Hid, Hin. simpl. unfold bindM at 1, attempt.
  destruct (publicKeyFromIdentity idn s) as [[sshPublicKey | e] s1]; [| reflexivity].
  unfold bindM at 1, lift at 1.
  destruct (sshpk_parseKey rt sshPublicKey) as [key | e]; [| reflexivity].
  destruct (negb (type key =? "ed25519")); [reflexivity |].
  unfold bindM, lift.
  destruct (verifyAttestation rt _ _ _) as [[|] | e]; reflexivity.
Qed.

(** The loop over [pre ++ rest] is the loop over [pre] followed, when it was
    not aborted, by the loop over [rest]. *)
Lemma loop_app contentHashes (pre rest : list Attestation) :
  forall i valid s,
    verifyAttestations_loop this contentHashes i (pre ++ rest) valid s =
    match verifyAttestations_loop this contentHashes i pre valid s with
    | ({| validAttestations_at_exit := valid'; thrown := None |}, s') =>
        verifyAttestations_loop this contentHashes (i + List.length pre) rest valid' s'
    | aborted => aborted
    end.
Proof.
  induction pre as [| a pre IH]; intros i valid s; simpl.
  - now rewrite Nat.add_0_r.
  - destruct (verifyAttestations_body this contentHashes valid i a s) as [[valid' | e] s'].
    + rewrite IH. now rewrite Nat.add_succ_r.
    + reflexivity.
Qed.


End PassFacts.

(** C4.  An attestation whose identity, after the positional fallback, is not
    in the allow-list is skipped: the iteration leaves [validAttestations]
    and the machine as they were (no fetch is made, so no key is resolved),
    whatever the attestation's messages and signatures are and whatever the
    runtime is, and the loop goes on with the next attestation. *)
Theorem unlisted_identity_never_counts (rt : Runtime) (this : StatelessRpcClient)
    (contentHashes : list string) (validAttestations : list Attestation) (i : nat)
    (attestation : Attestation) (rest : list Attestation) (s : machine rt) :
  includes_opt (identities this) (identity (assign_identity this i attestation)) = false ->
  verifyAttestations_body this contentHashes validAttestations i attestation s
    = (Ok validAttestations, s) /\
  verifyAttestations_loop this contentHashes i (attestation :: rest) validAttestations s
    = verifyAttestations_loop this contentHashes (S i) rest validAttestations s.
Proof.
  intros H.
  pose proof (@body_skips_unlisted rt this contentHashes validAttestations i attestation s H)
    as Hb.
  split; [exact Hb |]. simpl. now rewrite Hb.
Qed.

Lemma unlisted_identity_never_counts_witness :
  verifyAttestations_body (Demo.client None None) [Demo.digest_0x1] [] 0
    (Demo.single (Some "https://evil.example")) (Demo.boot (Demo.answer []))
  = (Ok [], Demo.boot (Demo.answer [])).
Proof.
  exact (proj1 (@unlisted_identity_never_counts (Demo.serving (Demo.answer []))
                  (Demo.client None None) [Demo.digest_0x1] [] 0
                  (Demo.single (Some "https://evil.example")) []
                  (Demo.boot (Demo.answer [])) eq_refl)).
Defined.

(** C5, as stated, fails: resolving a key includes parsing it, and only
    the lookup is inside the [try] of lines 127-131.  When [attestor-c]
    serves a web page as its key, [sshpk.parseKey] throws at line 133 and
    the pass ends there instead of going on with the valid attestation by
    [attestor-a]. *)
Lemma resolution_failure_claim_fails_on_unparsable_key :
  ~ resolution_failure_claim (Demo.client None None) [Demo.digest_0x1] 0
      (Demo.single (Some Demo.attestor_c)) [Demo.single (Some Demo.attestor_a)] []
      (Garbled.after (Demo.answer []) [])
      (Garbled.after (Demo.answer []) [Get (Demo.well_known Demo.attestor_c)]).
Proof.
  intros H.
  specialize (H Demo.attestor_c eq_refl eq_refl).
  assert (Hfails : resolution_fails Demo.attestor_c (Garbled.after (Demo.answer []) [])
                     (Garbled.after (Demo.answer [])
                        [Get (Demo.well_known Demo.attestor_c)])).
  { right. exists Garbled.page, (Foreign "KeyParseError"). split; reflexivity. }
  specialize (H Hfails). vm_compute in H. discriminate.
Qed.

(** On that response [verifyAttestations] throws what [sshpk.parseKey]
    threw, where skipping the attestation would have met the threshold. *)
Example unparsable_key_aborts_verification :
  verifyAttestations (Demo.client None None)
    (Demo.answer [Demo.single (Some Demo.attestor_c); Demo.single (Some Demo.attestor_a)])
    (Garbled.after (Demo.answer []) [])
  = (Err (Foreign "KeyParseError"),
     Garbled.after (Demo.answer []) [Get (Demo.well_known Demo.attestor_c)]) /\
  verifyAttestations (Demo.client None None)
    (Demo.answer [Demo.single (Some Demo.attestor_a)])
    (Garbled.after (Demo.answer []) [])
  = (Ok true, Garbled.after (Demo.answer []) [Get (Demo.well_known Demo.attestor_a)]).
Proof. split; vm_compute; reflexivity. Qed.

(** C5, amended.  Take a pass that reaches, without having been aborted, an
    attestation of an allow-listed identity.  When the key lookup fails (the
    fetch throws or the status is not 200), the pass goes on with the
    remaining attestations, with [validAttestations] as it was.  When the
    lookup and the parsing succeed and the key is not an ed25519 key, the
    pass ends there: [verifyAttestations] throws, whatever attestations were
    judged valid before and whatever attestations remain. *)
Theorem key_lookup_failure_is_local_key_type_is_fatal (rt : Runtime)
    (this : StatelessRpcClient) (response : AttestedJsonRpcResponse)
    (contentHashes : list string) (pre rest : list Attestation)
    (attestation : Attestation) (idn : string)
    (validAttestations : list Attestation) (s0 s : machine rt) :
  hashContent rt (attested_content response) = Ok contentHashes ->
  attestations response = pre ++ attestation :: rest ->
  verifyAttestations_loop this contentHashes 0 pre [] s0
    = ({| validAttestations_at_exit := validAttestations; thrown := None |}, s) ->
  identity (assign_identity this (List.length pre) attestation) = Some idn ->
  includes (identities this) idn = true ->
  (forall e s1,
     publicKeyFromIdentity idn s = (Err e, s1) ->
     verifyAttestations_pass this response s0
     = verifyAttestations_loop this contentHashes (S (List.length pre)) rest
         validAttestations s1) /\
  (forall sshPublicKey s1 key,
     publicKeyFromIdentity idn s = (Ok sshPublicKey, s1) ->
     sshpk_parseKey rt sshPublicKey = Ok key ->
     type key <> "ed25519" ->
     verifyAttestations this response s0
     = (Err (JsError "The provided key is not an ed25519 key"), s1)).
Proof.
  intros Hhash Hatt Hpre Hid Hin.
  pose proof (@body_listed rt this contentHashes validAttestations (List.length pre)
                attestation idn s Hid Hin) as Hbody.
  assert (Hpass :
    verifyAttestations_pass this response s0
    = verifyAttestations_loop this contentHashes (List.length pre) (attestation :: rest)
        validAttestations s).
  { unfold verifyAttestations_pass. cbv zeta.
    rewrite Hhash, Hatt, loop_app, Hpre. reflexivity. }
  split.
  - intros e s1 Hfetch. rewrite Hpass. simpl. rewrite Hbody, Hfetch. reflexivity.
  - intros sshPublicKey s1 key Hfetch Hparse Htype.
    rewrite Hfetch, Hparse in Hbody.
    apply String.eqb_neq in Htype. rewrite Htype in Hbody. simpl in Hbody.
    unfold verifyAttestations. rewrite Hpass. simpl. rewrite Hbody. reflexivity.
Qed.

Lemma key_lookup_failure_is_local_key_type_is_fatal_witness :
  verifyAttestations (Demo.client None None)
    (Demo.answer [Demo.single (Some Demo.attestor_c); Demo.single (Some Demo.attestor_a)])
    (Demo.boot (Demo.answer []))
  = (Ok true,
     Demo.after (Demo.answer [])
       [Get (Demo.well_known Demo.attestor_c); Get (Demo.well_known Demo.attestor_a)]) /\
  verifyAttestations (Demo.client None None)
    (Demo.answer [Demo.single (Some Demo.attestor_a); Demo.single (Some Demo.attestor_b)])
    (Demo.boot (Demo.answer []))
  = (Err (JsError "The provided key is not an ed25519 key"),
     Demo.after (Demo.answer [])
       [Get (Demo.well_known Demo.attestor_a); Get (Demo.well_known Demo.attestor_b)]).
Proof.
  split.
  - pose proof (@key_lookup_failure_is_local_key_type_is_fatal
                  (Demo.serving (Demo.answer [])) (Demo.client None None)
                  (Demo.answer [Demo.single (Some Demo.attestor_c);
                                Demo.single (Some Demo.attestor_a)])
                  [Demo.digest_0x1] [] [Demo.single (Some Demo.attestor_a)]
                  (Demo.single (Some Demo.attestor_c)) Demo.attestor_c []
                  (Demo.boot (Demo.answer [])) (Demo.boot (Demo.answer []))
                  eq_refl eq_refl eq_refl eq_refl eq_refl) as [Hlocal _].
    unfold verifyAttestations.
    rewrite (Hlocal (JsError ("Could not fetch public key from "
                              ++ Demo.well_known Demo.attestor_c)%string)
                    (Demo.after (Demo.answer []) [Get (Demo.well_known Demo.attestor_c)])
                    eq_refl).
    vm_compute. reflexivity.
  - pose proof (@key_lookup_failure_is_local_key_type_is_fatal
                  (Demo.serving (Demo.answer [])) (Demo.client None None)
                  (Demo.answer [Demo.single (Some Demo.attestor_a);
                                Demo.single (Some Demo.attestor_b)])
                  [Demo.digest_0x1] [Demo.single (Some Demo.attestor_a)] []
                  (Demo.single (Some Demo.attestor_b)) Demo.attestor_b
                  [Demo.single (Some Demo.attestor_a)]
                  (Demo.boot (Demo.answer []))
                  (Demo.after (Demo.answer []) [Get (Demo.well_known Demo.attestor_a)])
                  eq_refl eq_refl eq_refl eq_refl eq_refl) as [_ Hfatal].
    apply (Hfatal Demo.key_text_b
             (Demo.after (Demo.answer [])
                [Get (Demo.well_known Demo.attestor_a); Get (Demo.well_known Demo.attestor_b)])
             {| type := "rsa"; part_A_data := [] |} eq_refl eq_refl).
    discriminate.
Defined.

(** A key text that [sshpk.parseKey] rejects ends the pass as well: the call
    of line 133 is outside the [try] of lines 127-131. *)
Lemma unparsable_key_aborts_pass (rt : Runtime) (this : StatelessRpcClient)
    (contentHashes : list string) (validAttestations : list Attestation) (i : nat)
    (attestation : Attestation) (rest : list Attestation) (idn sshPublicKey : string)
    (e : exn) (s s1 : machine rt) :
  identity (assign_identity this i attestation) = Some idn ->
  includes (identities this) idn = true ->
  publicKeyFromIdentity idn s = (Ok sshPublicKey, s1) ->
  sshpk_parseKey rt sshPublicKey = Err e ->
  verifyAttestations_loop this contentHashes i (attestation :: rest) validAttestations s
  = ({| validAttestations_at_exit := validAttestations; thrown := Some e |}, s1).
Proof.
  intros Hid Hin Hfetch Hparse. simpl.
  rewrite (@body_listed rt this contentHashes validAttestations i attestation idn s Hid Hin).
  now rewrite Hfetch, Hparse.
Qed.



(** ** The threshold *)

Section ThresholdFacts.

Variable rt : Runtime.
Variable this : StatelessRpcClient.

(** What [verifyAttestations] answers, by the way the pass ended. *)
Lemma verifyAttestations_by_exit (response : AttestedJsonRpcResponse) (s : machine rt) :
  verifyAttestations this response s =
  match thrown (fst (verifyAttestations_pass this response s)) with
  | Some e => (Err e, snd (verifyAttestations_pass this response s))
  | None =>
      (Ok (minimumRequiredAttestations this <=? Z.of_nat (valid_count this response s))%Z,
       snd (verifyAttestations_pass this response s))
  end.
Proof.
  unfold verifyAttestations, valid_count.
  destruct (verifyAttestations_pass this response s) as [exit s']. simpl.
  destruct (thrown exit); reflexivity.
Qed.

(** A pass over no attestation makes no fetch and finds nothing valid. *)
Lemma pass_without_attestations (response : AttestedJsonRpcResponse)
    (contentHashes : list string) (s : machine rt) :
  attestations response = [] ->
  hashContent rt (attested_content response) = Ok contentHashes ->
  verifyAttestations_pass this response s
  = ({| validAttestations_at_exit := []; thrown := None |}, s).
Proof.
  intros Hnone Hhash. unfold verifyAttestations_pass. cbv zeta.
  now rewrite Hhash, Hnone.
Qed.

(** [release] on a single response, by the answer of [verifyAttestations]. *)
Lemma release_by_verdict (response : AttestedJsonRpcResponse) (s : machine rt) :
  release this (BodySingle response) s =
  match verifyAttestations this response s with
  | (Ok true, s') =>
      if truthy (error response)
      then (Err (rpc_error response), s')
      else (Ok (result response), s')
  | (Ok false, s') => (Err (threshold_error rt this), s')
  | (Err e, s') => (Err e, s')
  end.
Proof.
  unfold release, bindM.
  destruct (verifyAttestations this response s) as [[[|] | e] s']; simpl;
    try reflexivity.
  destruct (truthy (error response)); reflexivity.
Qed.

End ThresholdFacts.

(** C1, as stated, fails: with the default threshold 1 and identities whose
    keys are an ed25519 key ([attestor-a]) and an RSA key ([attestor-b]), a
    response with a valid attestation by the first and an attestation by the
    second has one attestation judged valid, and verification does not
    succeed: the pass is aborted at the second attestation (line 135). *)
Lemma threshold_claim_fails_on_aborted_pass :
  ~ threshold_claim (Demo.client None None)
      (Demo.answer [Demo.single (Some Demo.attestor_a); Demo.single (Some Demo.attestor_b)])
      (Demo.boot (Demo.answer [])).
Proof.
  unfold threshold_claim. intros [_ H].
  assert (Hcount :
    valid_count (Demo.client None None)
      (Demo.answer [Demo.single (Some Demo.attestor_a); Demo.single (Some Demo.attestor_b)])
      (Demo.boot (Demo.answer [])) = 1%nat) by (vm_compute; reflexivity).
  rewrite Hcount in H.
  assert (Hthrows :
    fst (verifyAttestations (Demo.client None None)
           (Demo.answer [Demo.single (Some Demo.attestor_a);
                         Demo.single (Some Demo.attestor_b)])
           (Demo.boot (Demo.answer [])))
    = Err (JsError "The provided key is not an ed25519 key")) by (vm_compute; reflexivity).
  rewrite Hthrows in H.
  assert (Hle : (minimumRequiredAttestations (Demo.client None None) <= Z.of_nat 1)%Z)
    by (vm_compute; discriminate).
  specialize (H Hle). discriminate.
Qed.

(** C1, amended.  Attestation verification succeeds if and only if the pass
    over the attestations was not aborted by an exception and the number of
    attestations judged valid is at least the threshold; it answers [false]
    if and only if the pass was not aborted and that number is below the
    threshold.  A threshold that is not supplied, to the constructor or to
    [createStatelessTransport], is 1. *)
Theorem verifyAttestations_threshold (rt : Runtime) (this : StatelessRpcClient)
    (response : AttestedJsonRpcResponse) (s : machine rt) :
  (fst (verifyAttestations this response s) = Ok true <->
   thrown (fst (verifyAttestations_pass this response s)) = None /\
   (minimumRequiredAttestations this <= Z.of_nat (valid_count this response s))%Z) /\
  (fst (verifyAttestations this response s) = Ok false <->
   thrown (fst (verifyAttestations_pass this response s)) = None /\
   (Z.of_nat (valid_count this response s) < minimumRequiredAttestations this)%Z) /\
  (forall rpcUrl identities proverUrl,
     minimumRequiredAttestations (constructor rpcUrl identities None proverUrl) = 1%Z) /\
  (forall rpcUrl identities proverUrl,
     minimumRequiredAttestations
       (createStatelessTransport
          {| Config.rpcUrl := rpcUrl; Config.identities := identities;
             Config.minimumRequiredAttestations := None;
             Config.proverUrl := proverUrl |}) = 1%Z).
Proof.
  rewrite verifyAttestations_by_exit.
  destruct (thrown (fst (verifyAttestations_pass this response s))) as [e |]; simpl.
  - split; [| split; [| split; reflexivity]].
    + split; [discriminate | intros [H _]; discriminate].
    + split; [discriminate | intros [H _]; discriminate].
  - split; [| split; [| split; reflexivity]].
    + split.
      * intros H. injection H as H. split; [reflexivity | now apply Z.leb_le].
      * intros [_ H]. f_equal. now apply Z.leb_le.
    + split.
      * intros H. injection H as H. split; [reflexivity | now apply Z.leb_gt].
      * intros [_ H]. f_equal. now apply Z.leb_gt.
Qed.

(** C10, as stated, fails: with threshold 0, verification of a response
    whose only attestation is by [attestor-b], whose key is an RSA key, does
    not succeed: it throws (line 135). *)
Lemma nonpositive_threshold_claim_fails_on_aborted_pass :
  ~ nonpositive_threshold_claim (Demo.client (Some 0%Z) None)
      (Demo.answer [Demo.single (Some Demo.attestor_b)])
      (Demo.boot (Demo.answer [])).
Proof.
  unfold nonpositive_threshold_claim. intros H.
  assert (Hle : (minimumRequiredAttestations (Demo.client (Some 0%Z) None) <= 0)%Z)
    by (vm_compute; discriminate).
  specialize (H Hle). vm_compute in H. discriminate.
Qed.

(** C10, amended.  The constructor stores any threshold it is given.  With
    a threshold that is zero or negative, attestation verification succeeds
    whenever the pass is not aborted by an exception, whatever was judged
    valid.  For a response without attestations whose content can be
    hashed, it succeeds without any fetch, and [request] hands out the
    result, or throws the RPC error, of a response nobody attested. *)
Theorem nonpositive_threshold_releases_unattested (rt : Runtime)
    (this : StatelessRpcClient) :
  (minimumRequiredAttestations this <= 0)%Z ->
  (forall rpcUrl identities t proverUrl,
     minimumRequiredAttestations (constructor rpcUrl identities (Some t) proverUrl) = t) /\
  (forall response (s : machine rt),
     thrown (fst (verifyAttestations_pass this response s)) = None ->
     fst (verifyAttestations this response s) = Ok true) /\
  (forall response contentHashes (s : machine rt),
     attestations response = [] ->
     hashContent rt (attested_content response) = Ok contentHashes ->
     verifyAttestations this response s = (Ok true, s) /\
     release this (BodySingle response) s
     = if truthy (error response)
       then (Err (rpc_error response), s)
       else (Ok (result response), s)).
Proof.
  intros Hle.
  assert (Hany : forall n : nat, (minimumRequiredAttestations this <=? Z.of_nat n)%Z = true).
  { intros n. apply Z.leb_le. lia. }
  split; [reflexivity |]. split.
  - intros response s Hexit. rewrite verifyAttestations_by_exit, Hexit.
    cbn [fst]. now rewrite Hany.
  - intros response contentHashes s Hnone Hhash.
    assert (Hverdict : verifyAttestations this response s = (Ok true, s)).
    { rewrite verifyAttestations_by_exit.
      unfold valid_count.
      rewrite (pass_without_attestations this response s Hnone Hhash).
      cbn [fst snd thrown validAttestations_at_exit]. now rewrite Hany. }
    split; [exact Hverdict |].
    rewrite release_by_verdict, Hverdict. reflexivity.
Qed.

Lemma nonpositive_threshold_releases_unattested_witness :
  release (Demo.client (Some 0%Z) None) (BodySingle (Demo.answer []))
    (Demo.boot (Demo.answer []))
  = (Ok (JStr "0x1"), Demo.boot (Demo.answer [])).
Proof.
  pose proof (@nonpositive_threshold_releases_unattested
                (Demo.serving (Demo.answer [])) (Demo.client (Some 0%Z) None)
                ltac:(vm_compute; discriminate)) as [_ [_ H]].
  exact (proj2 (H (Demo.answer []) [Demo.digest_0x1] (Demo.boot (Demo.answer []))
                  eq_refl eq_refl)).
Defined.

(** ** Releasing the response *)

Section RequestFacts.

Variable rt : Runtime.
Variable this : StatelessRpcClient.

(** [attested_request] once the main endpoint has answered with a single
    response. *)
Lemma attested_request_on_response (method : string) (params : list jsvalue)
    (response : AttestedJsonRpcResponse) (s s1 : machine rt) :
  sendJsonRpcRequest (rpcUrl this)
    {| id := Date_now rt (world s); method := method; params := params |} s
  = (Ok (BodySingle response), s1) ->
  attested_request this method params s = release this (BodySingle response) s1.
Proof.
  intros Hsend. unfold attested_request, bindM at 1, now.
  unfold bindM at 1. now rewrite Hsend.
Qed.

End RequestFacts.

(** C6, as stated, fails: a response that carries an error object and no
    result, with one attestation by [attestor-b], whose key is an RSA key.
    No attestation is judged valid, so the threshold 1 is not met, and
    [request] does not fail with the threshold error: the pass is aborted
    (line 135) and [request] fails with the error that aborted it. *)
Lemma error_response_claim_fails_on_aborted_pass :
  ~ error_response_claim (Demo.client None None)
      (Demo.failure [Demo.single_reverted (Some Demo.attestor_b)])
      (Demo.after (Demo.failure [Demo.single_reverted (Some Demo.attestor_b)])
         [Post Demo.endpoint {| id := 1700000000000; method := "eth_call"; params := [] |}]).
Proof.
  unfold error_response_claim. intros H.
  destruct (H eq_refl) as (_ & _ & Hunmet).
  assert (Hcount :
    valid_count (Demo.client None None)
      (Demo.failure [Demo.single_reverted (Some Demo.attestor_b)])
      (Demo.after (Demo.failure [Demo.single_reverted (Some Demo.attestor_b)])
         [Post Demo.endpoint {| id := 1700000000000; method := "eth_call"; params := [] |}])
    = 0%nat) by (vm_compute; reflexivity).
  rewrite Hcount in Hunmet.
  assert (Hlt : (Z.of_nat 0 < minimumRequiredAttestations (Demo.client None None))%Z)
    by (vm_compute; reflexivity).
  specialize (Hunmet Hlt). vm_compute in Hunmet. discriminate.
Qed.

(** C6, amended.  For a response of the main endpoint that carries an error
    object and no result ([result] absent or [null]), the pass of
    [verifyAttestations] runs over the digests of the error object.  When
    the pass is aborted, [request] fails with the error that aborted it.
    Otherwise [request] throws the RPC error when the number of attestations
    judged valid is at least the threshold, and the threshold error when it
    is below. *)
Theorem rpc_error_released_after_attestation (rt : Runtime) (this : StatelessRpcClient)
    (method : string) (params : list jsvalue) (response : AttestedJsonRpcResponse)
    (s s1 : machine rt) :
  truthy (error response) = true ->
  result response = JUndefined \/ result response = JNull ->
  sendJsonRpcRequest (rpcUrl this)
    {| id := Date_now rt (world s); method := method; params := params |} s
  = (Ok (BodySingle response), s1) ->
  attested_content response = error response /\
  verifyAttestations_pass this response s1
  = match hashContent rt (error response) with
    | Err e => ({| validAttestations_at_exit := []; thrown := Some e |}, s1)
    | Ok contentHashes =>
        verifyAttestations_loop this contentHashes 0 (attestations response) [] s1
    end /\
  attested_request this method params s
  = match thrown (fst (verifyAttestations_pass this response s1)) with
    | Some e => (Err e, snd (verifyAttestations_pass this response s1))
    | None =>
        if (minimumRequiredAttestations this <=? Z.of_nat (valid_count this response s1))%Z
        then (Err (rpc_error response), snd (verifyAttestations_pass this response s1))
        else (Err (threshold_error rt this), snd (verifyAttestations_pass this response s1))
    end.
Proof.
  intros Herror Hresult Hsend.
  assert (Hcontent : attested_content response = error response).
  { unfold attested_content. destruct Hresult as [-> | ->]; reflexivity. }
  split; [exact Hcontent |]. split.
  - unfold verifyAttestations_pass. cbv zeta. now rewrite Hcontent.
  - rewrite (attested_request_on_response this method params s Hsend).
    rewrite release_by_verdict, verifyAttestations_by_exit, Herror.
    destruct (thrown (fst (verifyAttestations_pass this response s1))); [reflexivity |].
    destruct (minimumRequiredAttestations this <=? Z.of_nat (valid_count this response s1))%Z;
      reflexivity.
Qed.

Lemma rpc_error_released_after_attestation_witness :
  attested_request (Demo.client None None) "eth_call" []
    (Demo.boot (Demo.failure [Demo.single_reverted (Some Demo.attestor_a)]))
  = (Err (RpcError (JStr "execution reverted") (JNum (inject_Z (-32000))) JUndefined),
     Demo.after (Demo.failure [Demo.single_reverted (Some Demo.attestor_a)])
       [Post Demo.endpoint {| id := 1700000000000; method := "eth_call"; params := [] |};
        Get (Demo.well_known Demo.attestor_a)]) /\
  attested_request (Demo.client None None) "eth_call" []
    (Demo.boot (Demo.failure [Demo.single_reverted (Some Demo.attestor_c)]))
  = (Err (JsError "Request did not meet the attestation threshold of 1."),
     Demo.after (Demo.failure [Demo.single_reverted (Some Demo.attestor_c)])
       [Post Demo.endpoint {| id := 1700000000000; method := "eth_call"; params := [] |};
        Get (Demo.well_known Demo.attestor_c)]).
Proof.
  split.
  - pose proof (@rpc_error_released_after_attestation
                  (Demo.serving (Demo.failure [Demo.single_reverted (Some Demo.attestor_a)]))
                  (Demo.client None None) "eth_call" []
                  (Demo.failure [Demo.single_reverted (Some Demo.attestor_a)])
                  (Demo.boot (Demo.failure [Demo.single_reverted (Some Demo.attestor_a)]))
                  (Demo.after (Demo.failure [Demo.single_reverted (Some Demo.attestor_a)])
                     [Post Demo.endpoint
                        {| id := 1700000000000; method := "eth_call"; params := [] |}])
                  eq_refl (or_introl eq_refl) eq_refl) as (_ & _ & H).
    rewrite H. vm_compute. reflexivity.
  - pose proof (@rpc_error_released_after_attestation
                  (Demo.serving (Demo.failure [Demo.single_reverted (Some Demo.attestor_c)]))
                  (Demo.client None None) "eth_call" []
                  (Demo.failure [Demo.single_reverted (Some Demo.attestor_c)])
                  (Demo.boot (Demo.failure [Demo.single_reverted (Some Demo.attestor_c)]))
                  (Demo.after (Demo.failure [Demo.single_reverted (Some Demo.attestor_c)])
                     [Post Demo.endpoint
                        {| id := 1700000000000; method := "eth_call"; params := [] |}])
                  eq_refl (or_introl eq_refl) eq_refl) as (_ & _ & H).
    rewrite H. vm_compute. reflexivity.
Defined.

(** The statement above leaves out a response that carries a result next to
    its error object.  On such a response the pass hashes the result
    (line 112), and [request] throws the RPC error once an attestation of
    the result has been verified. *)
Example unattested_error_released :
  attested_content (Demo.result_and_error [Demo.single (Some Demo.attestor_a)])
  = JStr "0x1" /\
  fst (release (Demo.client None None)
         (BodySingle (Demo.result_and_error [Demo.single (Some Demo.attestor_a)]))
         (Demo.boot (Demo.answer [])))
  = Err (RpcError (JStr "execution reverted") (JNum (inject_Z (-32000))) JUndefined).
Proof. split; vm_compute; reflexivity. Qed.

(** ** The trace of fetches *)

Section TraceFacts.

Variable rt : Runtime.
Variable P : fetch_call -> Prop.

Lemma calls_only_refl (s : machine rt) : calls_only P s s.
Proof. exists []. split; [now rewrite app_nil_r | constructor]. Qed.

Lemma calls_only_trans (s1 s2 s3 : machine rt) :
  calls_only P s1 s2 -> calls_only P s2 s3 -> calls_only P s1 s3.
Proof.
  intros [c1 [H1 F1]] [c2 [H2 F2]]. exists (c1 ++ c2). split.
  - now rewrite H2, H1, app_assoc.
  - apply Forall_app. now split.
Qed.

Lemma makes_only_ret {A} (a : A) : makes_only P (ret (rt:=rt) a).
Proof. intros s. apply calls_only_refl. Qed.

Lemma makes_only_throw {A} (e : exn) : makes_only P (throw (rt:=rt) (A:=A) e).
Proof. intros s. apply calls_only_refl. Qed.

Lemma makes_only_lift {A} (r : completion A) : makes_only P (lift (rt:=rt) r).
Proof. intros s. apply calls_only_refl. Qed.

Lemma makes_only_now : makes_only P (now (rt:=rt)).
Proof. intros s. apply calls_only_refl. Qed.

Lemma makes_only_bind {A B} (c : M rt A) (k : A -> M rt B) :
  makes_only P c -> (forall a, makes_only P (k a)) -> makes_only P (bindM c k).
Proof.
  intros Hc Hk s. unfold bindM. specialize (Hc s).
  destruct (c s) as [[a | e] s1]; simpl in *.
  - eapply calls_only_trans; [exact Hc | apply Hk].
  - exact Hc.
Qed.

Lemma makes_only_attempt {A} (c : M rt A) :
  makes_only P c -> makes_only P (attempt c).
Proof.
  intros Hc s. unfold attempt. specialize (Hc s).
  destruct (c s) as [r s1]. exact Hc.
Qed.

Lemma makes_only_fetch (call : fetch_call) : P call -> makes_only P (do_fetch (rt:=rt) call).
Proof.
  intros Hcall s. unfold do_fetch.
  destruct (fetch rt (world s) call) as [r w]. simpl.
  exists [call]. split; [reflexivity | now constructor].
Qed.

Lemma makes_only_sendJsonRpcRequest (url : string) (request : JsonRpcRequest) :
  P (Post url request) -> makes_only P (sendJsonRpcRequest (rt:=rt) url request).
Proof.
  intros Hcall. unfold sendJsonRpcRequest.
  apply makes_only_bind; [now apply makes_only_fetch |].
  intros response. destruct (negb (ok response));
    [apply makes_only_throw | apply makes_only_lift].
Qed.

Lemma makes_only_publicKeyFromIdentity (identity : string) :
  P (Get (identity ++ "/.well-known/stateless-key")%string) ->
  makes_only P (publicKeyFromIdentity (rt:=rt) identity).
Proof.
  intros Hcall. unfold publicKeyFromIdentity. cbv zeta.
  apply makes_only_bind; [now apply makes_only_fetch |].
  intros response. destruct (negb (status response =? 200)%Z);
    [apply makes_only_throw | apply makes_only_lift].
Qed.

End TraceFacts.

Section ProofFacts.

Variable rt : Runtime.
Variable this : StatelessRpcClient.

Lemma makes_only_sendToProver (method : string) (params : list jsvalue) :
  In method prover_methods ->
  makes_only (prover_call this) (sendToProver (rt:=rt) this method params).
Proof.
  intros Hmethod. unfold sendToProver.
  destruct (proverUrl this) as [url |] eqn:Hurl; [| apply makes_only_throw].
  destruct (negb (truthy_string (Some url))); [apply makes_only_throw |].
  apply makes_only_bind; [apply makes_only_now |]. intros id.
  apply makes_only_bind.
  - apply makes_only_sendJsonRpcRequest. simpl. now split.
  - intros [response | responses]; [| apply makes_only_throw].
    destruct (truthy (error response)); [apply makes_only_throw | apply makes_only_ret].
Qed.

Lemma makes_only_verify_storage (storageProof : jsvalue) (storageKeys : list jsvalue) :
  forall i (storageTrie : Trie rt),
    makes_only (prover_call this)
      (verify_storage storageProof i storageKeys storageTrie).
Proof.
  induction storageKeys as [| k keys IH]; intros i storageTrie; simpl.
  - apply makes_only_ret.
  - apply makes_only_bind; [apply makes_only_lift |]. intros proofBuffer.
    apply makes_only_bind; [apply makes_only_lift |]. intros storageTrie'.
    apply makes_only_bind; [apply makes_only_lift |]. intros [v |].
    + apply IH.
    + apply makes_only_throw.
Qed.

Ltac step :=
  apply makes_only_bind;
  [ first [ apply makes_only_lift
          | apply makes_only_sendToProver; simpl; tauto ]
  | intro ].

Ltac steps :=
  repeat step;
  match goal with
  | |- makes_only _ (match ?v with _ => _ end) => destruct v
  end;
  [ step; step; apply makes_only_verify_storage | apply makes_only_throw ].

(** The proof verifier talks to the prover and to nobody else. *)
Lemma makes_only_verifyStatelessProof (params : jsvalue) :
  makes_only (prover_call this) (verifyStatelessProof (rt:=rt) this params).
Proof.
  unfold verifyStatelessProof.
  destruct (negb (truthy_string (proverUrl this))); [apply makes_only_throw |].
  steps.
Qed.

(** The one fetch of [sendToProver] when a prover URL is configured. *)
Lemma sendToProver_trace (url method : string) (params : list jsvalue) (s : machine rt) :
  proverUrl this = Some url -> url <> "" ->
  trace (snd (sendToProver this method params s))
  = trace s ++ [Post url {| id := Date_now rt (world s); method := method;
                            params := params |}].
Proof.
  intros Hurl Hne.
  assert (Htruthy : truthy_string (Some url) = true) by now apply truthy_string_Some.
  unfold sendToProver. rewrite Hurl, Htruthy.
  change (negb true) with false. cbv iota.
  unfold bindM at 1, now. unfold bindM at 1, sendJsonRpcRequest, bindM at 1, do_fetch.
  match goal with
  | |- context [fetch rt (world s) ?call] =>
      destruct (fetch rt (world s) call) as [[response | e] w]; simpl; [| reflexivity]
  end.
  destruct (negb (ok response)); simpl; [reflexivity |].
  unfold lift. destruct (json response) as [[resp | resps] | e]; simpl; try reflexivity.
  destruct (truthy (error resp)); reflexivity.
Qed.

(** The trace of [c] followed by [k], when [c] makes exactly one fetch. *)
Lemma bind_first_call {A B} (c : M rt A) (k : A -> M rt B)
    (first : machine rt -> fetch_call) (Q : fetch_call -> Prop) :
  (forall s, trace (snd (c s)) = trace s ++ [first s]) ->
  (forall a, makes_only Q (k a)) ->
  forall s, exists calls, trace (snd (bindM c k s)) = trace s ++ first s :: calls.
Proof.
  intros Hc Hk s. unfold bindM. specialize (Hc s).
  destruct (c s) as [[a | e] s1]; simpl in *.
  - destruct (Hk a s1) as [calls [Htrace _]]. exists calls.
    rewrite Htrace, Hc. now rewrite <- app_assoc.
  - exists []. exact Hc.
Qed.

(** When a prover URL is configured, the first fetch of
    [verifyStatelessProof] asks the prover for the block number. *)
Lemma verifyStatelessProof_first_call (url : string) (params : jsvalue) (s : machine rt) :
  proverUrl this = Some url -> url <> "" ->
  exists calls,
    trace (snd (verifyStatelessProof this params s))
    = trace s ++ Post url {| id := Date_now rt (world s); method := "eth_blockNumber";
                             params := [] |}
                 :: calls.
Proof.
  intros Hurl Hne.
  assert (Htruthy : truthy_string (proverUrl this) = true).
  { rewrite Hurl. now apply truthy_string_Some. }
  unfold verifyStatelessProof. rewrite Htruthy.
  change (negb true) with false. cbv iota.
  apply (@bind_first_call _ _ _ _
           (fun s => Post url {| id := Date_now rt (world s); method := "eth_blockNumber";
                                 params := [] |})
           (prover_call this)).
  - intros s'. now apply sendToProver_trace.
  - intros latestBlockNumber. steps.
Qed.

(** No call to the prover is a key lookup, and none carries [eth_call]. *)
Lemma prover_call_is_no_other (call : fetch_call) :
  prover_call this call ->
  (forall url, call <> Get url) /\ ~ carries "eth_call" call.
Proof.
  destruct call as [url | url body]; simpl; [tauto |].
  intros [_ Hin]. split; [discriminate |].
  intros Heq. rewrite Heq in Hin. simpl in Hin.
  repeat (destruct Hin as [Hin | Hin]; [discriminate |]). exact Hin.
Qed.

Lemma proof_required_iff (method : string) :
  proof_required this method = true <-> prover_configured this /\ method = "eth_call".
Proof.
  unfold proof_required, prover_configured. rewrite andb_true_iff, String.eqb_eq.
  split; intros [Hurl Hmethod]; split; try assumption.
  - destruct (proverUrl this) as [url |]; [| discriminate].
    exists url. split; [reflexivity | now apply truthy_string_Some].
  - destruct Hurl as [url [-> Hne]]. now apply truthy_string_Some.
Qed.

End ProofFacts.

Section AttestationTrace.

Variable rt : Runtime.
Variable this : StatelessRpcClient.

(** An iteration makes at most the key lookup of an allow-listed identity. *)
Lemma makes_only_body (contentHashes : list string) (valid : list Attestation)
    (i : nat) (attestation : Attestation) :
  makes_only (key_lookup this)
    (verifyAttestations_body (rt:=rt) this contentHashes valid i attestation).
Proof.
  unfold verifyAttestations_body. cbv zeta.
  destruct (identity (assign_identity this i attestation)) as [idn |];
    [| apply makes_only_ret].
  destruct (includes (identities this) idn) eqn:Hin; simpl; [| apply makes_only_ret].
  apply makes_only_bind.
  - apply makes_only_attempt, makes_only_publicKeyFromIdentity.
    exists idn. split; [now apply includes_In | reflexivity].
  - intros [sshPublicKey | e]; [| apply makes_only_ret].
    apply makes_only_bind; [apply makes_only_lift |]. intros key.
    destruct (negb (type key =? "ed25519")); [apply makes_only_throw |].
    apply makes_only_bind; [apply makes_only_lift |].
    intros [|]; apply makes_only_ret.
Qed.

Lemma loop_calls_only (contentHashes : list string) (rest : list Attestation) :
  forall i valid (s : machine rt),
    calls_only (key_lookup this) s
      (snd (verifyAttestations_loop this contentHashes i rest valid s)).
Proof.
  induction rest as [| a rest IH]; intros i valid s; simpl.
  - apply calls_only_refl.
  - pose proof (makes_only_body contentHashes valid i a s) as Hbody.
    destruct (verifyAttestations_body this contentHashes valid i a s) as [[valid' | e] s'];
      simpl in *.
    + eapply calls_only_trans; [exact Hbody | apply IH].
    + exact Hbody.
Qed.

(** Attestation verification makes no fetch but key lookups of allow-listed
    identities. *)
Lemma makes_only_verifyAttestations (response : AttestedJsonRpcResponse) :
  makes_only (key_lookup this) (verifyAttestations (rt:=rt) this response).
Proof.
  intros s. unfold verifyAttestations, verifyAttestations_pass. cbv zeta.
  destruct (hashContent rt (attested_content response)) as [contentHashes | e]; simpl.
  - pose proof (loop_calls_only contentHashes (attestations response) 0 [] s) as Hloop.
    destruct (verifyAttestations_loop this contentHashes 0 (attestations response) [] s)
      as [exit s']. simpl in *.
    destruct (thrown exit); exact Hloop.
  - apply calls_only_refl.
Qed.

Lemma makes_only_release (response : Body) :
  makes_only (key_lookup this) (release (rt:=rt) this response).
Proof.
  destruct response as [response | responses]; simpl; [| apply makes_only_throw].
  apply makes_only_bind; [apply makes_only_verifyAttestations |].
  intros isValid. destruct (negb isValid); [apply makes_only_throw |].
  destruct (truthy (error response)); [apply makes_only_throw | apply makes_only_ret].
Qed.

(** The first fetch of [attested_request] is the request to the main
    endpoint; the others are key lookups. *)
Lemma attested_request_trace (method : string) (params : list jsvalue) (s : machine rt) :
  exists lookups,
    trace (snd (attested_request this method params s))
    = trace s ++ Post (rpcUrl this)
                   {| id := Date_now rt (world s); method := method; params := params |}
                 :: lookups /\
    Forall (key_lookup this) lookups.
Proof.
  unfold attested_request, bindM at 1, now.
  unfold bindM at 1, sendJsonRpcRequest, bindM at 1, do_fetch.
  match goal with
  | |- context [fetch rt (world s) ?call] =>
      destruct (fetch rt (world s) call) as [[response | e] w]; simpl
  end.
  - destruct (negb (ok response)); simpl.
    + exists []. split; [reflexivity | constructor].
    + unfold lift. destruct (json response) as [body | e]; simpl.
      * destruct (makes_only_release body
                    {| world := w;
                       trace := trace s ++ [Post (rpcUrl this)
                                  {| id := Date_now rt (world s); method := method;
                                     params := params |}] |})
          as [lookups [Htrace Hall]].
        exists lookups. split; [| exact Hall].
        rewrite Htrace. simpl. now rewrite <- app_assoc.
      * exists []. split; [reflexivity | constructor].
  - exists []. split; [reflexivity | constructor].
Qed.

End AttestationTrace.

(** ** The proof gate *)

(** C7.  [request] runs the stateless proof verification exactly when a
    prover URL is configured and the method is [eth_call].
    - When it runs, its first fetch asks the prover for the block number and
      all its fetches are calls to the prover: none is the [eth_call] to
      the main endpoint, none is a key lookup.  If it throws, [request]
      throws the same exception in the state the verification left, so the
      main request is not sent and no attestation is looked at.  If it
      returns, the main request is the next fetch, followed by key lookups
      only.
    - When it does not run, [request] is the attested request alone: its
      first fetch is the main request, and no call to the prover is made. *)
Theorem stateless_proof_gate (rt : Runtime) (this : StatelessRpcClient)
    (method : string) (params : list jsvalue) (s : machine rt) :
  (proof_required this method = true <->
   prover_configured this /\ method = "eth_call") /\
  (proof_required this method = true ->
   only_prover_calls this s (snd (verifyStatelessProof this (JArr params) s)) /\
   (exists url calls,
      proverUrl this = Some url /\
      trace (snd (verifyStatelessProof this (JArr params) s))
      = trace s ++ Post url {| id := Date_now rt (world s);
                               method := "eth_blockNumber"; params := [] |} :: calls) /\
   (forall e s',
      verifyStatelessProof this (JArr params) s = (Err e, s') ->
      request this method params s = (Err e, s')) /\
   (forall u s',
      verifyStatelessProof this (JArr params) s = (Ok u, s') ->
      request this method params s = attested_request this method params s' /\
      exists lookups,
        trace (snd (request this method params s))
        = trace s' ++ Post (rpcUrl this)
                        {| id := Date_now rt (world s'); method := method;
                           params := params |} :: lookups /\
        Forall (key_lookup this) lookups)) /\
  (proof_required this method = false ->
   request this method params s = attested_request this method params s /\
   exists lookups,
     trace (snd (request this method params s))
     = trace s ++ Post (rpcUrl this)
                    {| id := Date_now rt (world s); method := method;
                       params := params |} :: lookups /\
     Forall (key_lookup this) lookups) /\
  (forall call,
     prover_call this call ->
     (forall url, call <> Get url) /\ ~ carries "eth_call" call).
Proof.
  split; [apply proof_required_iff |].
  split; [| split].
  - intros Hreq.
    split; [apply makes_only_verifyStatelessProof |].
    split; [| split].
    + destruct (proj1 (proof_required_iff this method) Hreq) as [[url [Hurl Hne]] _].
      destruct (@verifyStatelessProof_first_call rt this url (JArr params) s Hurl Hne)
        as [calls Hcalls].
      now exists url, calls.
    + intros e s' Hproof. unfold request, bindM. now rewrite Hreq, Hproof.
    + intros u s' Hproof.
      assert (Heq : request this method params s = attested_request this method params s').
      { unfold request, bindM. now rewrite Hreq, Hproof. }
      split; [exact Heq |]. rewrite Heq. apply attested_request_trace.
  - intros Hreq.
    assert (Heq : request this method params s = attested_request this method params s).
    { unfold request, bindM. rewrite Hreq. reflexivity. }
    split; [exact Heq |]. rewrite Heq. apply attested_request_trace.
  - apply prover_call_is_no_other.
Qed.

(** A proof-gated [eth_call] on the second double.  When the account proof
    omits the account, [request] throws after the four calls to the prover:
    the main endpoint is not called and no key is looked up.  When the
    account and its storage key are proven, the main request and the key
    lookup follow the four calls. *)
Lemma stateless_proof_gate_witness :
  request (Demo.client None (Some Demo.prover)) "eth_call"
    [Demo.call_object; JStr "latest"]
    (Demo.proving_after false (BodySingle (Demo.answer [Demo.single None])) [])
  = (Err (JsError "Account not found in state trie"),
     Demo.proving_after false (BodySingle (Demo.answer [Demo.single None]))
       Demo.proof_calls) /\
  request (Demo.client None (Some Demo.prover)) "eth_call"
    [Demo.call_object; JStr "latest"]
    (Demo.proving_after true (BodySingle (Demo.answer [Demo.single None])) [])
  = (Ok (JStr "0x1"),
     Demo.proving_after true (BodySingle (Demo.answer [Demo.single None]))
       (Demo.proof_calls ++
        [Post Demo.endpoint {| id := 1700000000000; method := "eth_call";
                               params := [Demo.call_object; JStr "latest"] |};
         Get (Demo.well_known Demo.attestor_a)])).
Proof.
  split.
  - destruct (@stateless_proof_gate
                (Demo.proving false (BodySingle (Demo.answer [Demo.single None])))
                (Demo.client None (Some Demo.prover)) "eth_call"
                [Demo.call_object; JStr "latest"]
                (Demo.proving_after false (BodySingle (Demo.answer [Demo.single None])) []))
      as [_ [Hruns _]].
    destruct (Hruns eq_refl) as [_ [_ [Hthrows _]]].
    apply Hthrows. vm_compute. reflexivity.
  - destruct (@stateless_proof_gate
                (Demo.proving true (BodySingle (Demo.answer [Demo.single None])))
                (Demo.client None (Some Demo.prover)) "eth_call"
                [Demo.call_object; JStr "latest"]
                (Demo.proving_after true (BodySingle (Demo.answer [Demo.single None])) []))
      as [_ [Hruns _]].
    destruct (Hruns eq_refl) as [_ [_ [_ Hreturns]]].
    destruct (Hreturns tt
                (Demo.proving_after true (BodySingle (Demo.answer [Demo.single None]))
                   Demo.proof_calls)) as [Hrequest _].
    + vm_compute. reflexivity.
    + rewrite Hrequest. vm_compute. reflexivity.
Defined.

(** With threshold 2, two valid attestations by the same identity (the
    first by position) and one whose key cannot be fetched meet the
    threshold. *)
Lemma verifyAttestations_threshold_witness :
  fst (verifyAttestations (Demo.client (Some 2%Z) None)
         (Demo.answer [Demo.single None; Demo.single (Some Demo.attestor_a);
                       Demo.single (Some Demo.attestor_c)])
         (Demo.boot (Demo.answer [])))
  = Ok true.
Proof.
  destruct (@verifyAttestations_threshold (Demo.serving (Demo.answer []))
              (Demo.client (Some 2%Z) None)
              (Demo.answer [Demo.single None; Demo.single (Some Demo.attestor_a);
                            Demo.single (Some Demo.attestor_c)])
              (Demo.boot (Demo.answer []))) as [Hsucceeds _].
  apply Hsucceeds. split.
  - vm_compute. reflexivity.
  - vm_compute. discriminate.
Defined.


(** * Properties beyond the claims *)

(** ** Hashing the content *)

Lemma mapR_Forall2 {A B} (f : A -> completion B) (l : list A) :
  forall ys, mapR f l = Ok ys -> Forall2 (fun x y => f x = Ok y) l ys.
Proof.
  induction l as [| x l IH]; simpl; intros ys H.
  - injection H as <-. constructor.
  - destruct (f x) as [y |] eqn:Hx; simpl in H; [| discriminate].
    destruct (mapR f l) as [ys' |]; simpl in H; [| discriminate].
    injection H as <-. constructor; [exact Hx | now apply IH].
Qed.

(** X1.  When [hashContent] returns, an array content has given one digest
    per element, in the order of the elements, each the digest of the JSON
    text of its element; any other content has given exactly one digest,
    that of the JSON text of the whole content. *)
Theorem hashContent_one_digest_per_item (rt : Runtime) (content : jsvalue)
    (contentHashes : list string) :
  hashContent rt content = Ok contentHashes ->
  match content with
  | JArr items =>
      Forall2 (fun item hash => sha256_hex rt (JSON_stringify rt item) = Ok hash)
              items contentHashes /\
      List.length contentHashes = List.length items
  | _ =>
      exists hash, contentHashes = [hash] /\
                   sha256_hex rt (JSON_stringify rt content) = Ok hash
  end.
Proof.
  intros H.
  assert (Hother : forall v, (h <~ sha256_hex rt (JSON_stringify rt v) ;; Ok [h])
                             = Ok contentHashes ->
                   exists hash, contentHashes = [hash] /\
                                sha256_hex rt (JSON_stringify rt v) = Ok hash).
  { intros v Hv. destruct (sha256_hex rt (JSON_stringify rt v)) as [h |]; simpl in Hv;
      [| discriminate].
    injection Hv as <-. now exists h. }
  destruct content; simpl in H; try (now apply Hother).
  pose proof (mapR_Forall2 _ _ H) as Hall. split; [exact Hall |].
  symmetry. exact (Forall2_length Hall).
Qed.

Lemma hashContent_one_digest_per_item_witness :
  Forall2 (fun item hash =>
             sha256_hex Demo.idle (JSON_stringify Demo.idle item) = Ok hash)
          [JStr "0x1"; JStr "0x2"] [Demo.digest_0x1; Demo.digest_0x2] /\
  List.length [Demo.digest_0x1; Demo.digest_0x2] = 2%nat.
Proof.
  exact (@hashContent_one_digest_per_item Demo.idle (JArr [JStr "0x1"; JStr "0x2"])
           [Demo.digest_0x1; Demo.digest_0x2] eq_refl).
Defined.

(** ** Judging one attestation: what the verdict depends on *)

Section VerdictFacts.

Variable rt : Runtime.

Lemma verifySignature_ignores_hashAlgo msgHash signature publicKey (algo algo' : string) :
  verifySignature rt msgHash signature publicKey algo
  = verifySignature rt msgHash signature publicKey algo'.
Proof. reflexivity. Qed.

(** A verdict [true] was given in one of the two modes. *)
Lemma verifyAttestation_true_binds attestation publicKey contentHashes :
  verifyAttestation rt attestation publicKey contentHashes = Ok true ->
  binds_content contentHashes attestation.
Proof.
  unfold verifyAttestation, binds_content.
  destruct (batch_mode attestation) eqn:Hbatch.
  - unfold batch_mode in Hbatch.
    destruct (msgs attestation) as [ms |]; [| discriminate].
    destruct (forallb (fun hash => includes ms hash) contentHashes) eqn:Hsub; simpl;
      [| discriminate].
    intros _. exists ms. split; [reflexivity |].
    exact (proj1 (subset_forallb _ _) Hsub).
  - destruct (single_mode attestation); [| discriminate].
    destruct (msg attestation) as [m |]; [| discriminate].
    destruct (includes contentHashes m) eqn:Hin; [| discriminate].
    intros _. exists m. split; [reflexivity | now apply includes_In].
Qed.

End VerdictFacts.

(** X2.  The verdict on an attestation depends on its [msg], [msgs],
    [signature] and [signatures] only: [hashAlgo], [signatureFormat] and
    [identity] are never looked at.  In batch mode [msg] and [signature] are
    not looked at either. *)
Theorem verdict_ignores_algorithm_format_identity (rt : Runtime)
    (a b : Attestation) (publicKey : list byte) (contentHashes : list string) :
  msgs a = msgs b -> signatures a = signatures b ->
  (msg a = msg b /\ signature a = signature b \/ batch_mode a = true) ->
  verifyAttestation rt a publicKey contentHashes
  = verifyAttestation rt b publicKey contentHashes.
Proof.
  intros Hms Hsigs Hrest.
  assert (Hbatch : batch_mode b = batch_mode a).
  { unfold batch_mode. now rewrite Hms, Hsigs. }
  unfold verifyAttestation. rewrite Hbatch, <- Hms, <- Hsigs.
  destruct (batch_mode a) eqn:Ha.
  - destruct (negb _); [reflexivity |].
    f_equal.
  - destruct Hrest as [[Hm Hs] | Hcontra]; [| discriminate].
    unfold single_mode. rewrite <- Hm, <- Hs.
    destruct (truthy_string (msg a) && truthy_string (signature a)); [| reflexivity].
    destruct (msg a); [| reflexivity].
    destruct (includes contentHashes s); reflexivity.
Qed.

Lemma verdict_ignores_algorithm_format_identity_witness :
  verifyAttestation Demo.idle
    {| signature := Some Demo.signature_0x1; signatures := None;
       signatureFormat := "pgp"; hashAlgo := "md5";
       msg := Some Demo.digest_0x1; msgs := None; identity := Some "mallory" |}
    Demo.public_key [Demo.digest_0x1]
  = verifyAttestation Demo.idle (Demo.single (Some Demo.attestor_a))
      Demo.public_key [Demo.digest_0x1].
Proof.
  apply verdict_ignores_algorithm_format_identity;
    [reflexivity | reflexivity | left; split; reflexivity].
Defined.

(** X3.  In batch mode the content digests are only required to be among
    [msgs]: an attestation judged valid for a digest set is judged valid for
    every subset of it, so a batch attestation that is valid for any content
    at all is valid for the empty digest set of the result [[]] as well. *)
Theorem batch_verdict_survives_fewer_digests (rt : Runtime) (attestation : Attestation)
    (publicKey : list byte) (contentHashes fewer : list string) :
  batch_mode attestation = true ->
  (forall hash, In hash fewer -> In hash contentHashes) ->
  verifyAttestation rt attestation publicKey contentHashes = Ok true ->
  verifyAttestation rt attestation publicKey fewer = Ok true /\
  verifyAttestation rt attestation publicKey [] = Ok true /\
  hashContent rt (JArr []) = Ok [].
Proof.
  intros Hbatch Hsub. unfold verifyAttestation. rewrite Hbatch. cbv zeta.
  destruct (msgs attestation) as [ms |] eqn:Hms;
    [| unfold batch_mode in Hbatch; rewrite Hms in Hbatch; discriminate].
  destruct (forallb (fun hash => includes ms hash) contentHashes) eqn:Hall; simpl;
    [| discriminate].
  intros Hevery.
  assert (Hfewer : forallb (fun hash => includes ms hash) fewer = true).
  { apply subset_forallb. intros hash Hin.
    apply (proj1 (subset_forallb _ _) Hall). now apply Hsub. }
  rewrite Hfewer. simpl. repeat split; assumption.
Qed.

Lemma batch_verdict_survives_fewer_digests_witness :
  verifyAttestation Demo.idle (Demo.batch (Some Demo.attestor_a)) Demo.public_key [] = Ok true.
Proof.
  refine (proj1 (proj2 (@batch_verdict_survives_fewer_digests Demo.idle
                          (Demo.batch (Some Demo.attestor_a)) Demo.public_key
                          [Demo.digest_0x1; Demo.digest_0x2] [Demo.digest_0x2]
                          eq_refl _ eq_refl))).
  intros hash [<- | []]. right. now left.
Defined.

(** X4.  Outside batch mode one digest is enough: an attestation judged
    valid for a digest set is judged valid for every larger set, so the
    attestation of one element validates an array result of any length; and
    it is never valid for the empty digest set. *)
Theorem single_verdict_survives_more_digests (rt : Runtime) (attestation : Attestation)
    (publicKey : list byte) (contentHashes more : list string) :
  batch_mode attestation = false ->
  (forall hash, In hash contentHashes -> In hash more) ->
  verifyAttestation rt attestation publicKey contentHashes = Ok true ->
  verifyAttestation rt attestation publicKey more = Ok true /\
  verifyAttestation rt attestation publicKey [] = Ok false.
Proof.
  intros Hbatch Hsub. unfold verifyAttestation. rewrite Hbatch.
  destruct (single_mode attestation); [| discriminate].
  destruct (msg attestation) as [m |]; [| discriminate]. cbv zeta.
  destruct (includes contentHashes m) eqn:Hin; [| discriminate].
  intros Hsig.
  assert (Hmore : includes more m = true).
  { apply includes_In. apply Hsub. now apply includes_In. }
  rewrite Hmore. split; [exact Hsig | reflexivity].
Qed.

Lemma single_verdict_survives_more_digests_witness :
  verifyAttestation Demo.idle (Demo.single (Some Demo.attestor_a)) Demo.public_key
    [Demo.digest_0x2; Demo.digest_0x1] = Ok true.
Proof.
  refine (proj1 (@single_verdict_survives_more_digests Demo.idle
                   (Demo.single (Some Demo.attestor_a)) Demo.public_key
                   [Demo.digest_0x1] [Demo.digest_0x2; Demo.digest_0x1]
                   eq_refl _ eq_refl)).
  intros hash [<- | []]. right. now left.
Defined.

(** ** Invariants of a pass over the attestations *)

Section PassInvariants.

Variable rt : Runtime.
Variable this : StatelessRpcClient.

(** What one iteration can do to [validAttestations], how it can throw, and
    what it fetches. *)
Lemma body_facts (contentHashes : list string) (valid : list Attestation) (i : nat)
    (attestation : Attestation) (s : machine rt) :
  (exists calls,
     trace (snd (verifyAttestations_body this contentHashes valid i attestation s))
     = trace s ++ calls /\
     Forall (key_lookup this) calls /\ (List.length calls <= 1)%nat) /\
  match fst (verifyAttestations_body this contentHashes valid i attestation s) with
  | Ok valid' =>
      valid' = valid \/
      valid' = valid ++ [assign_identity this i attestation] /\
      allow_listed this (assign_identity this i attestation) /\
      binds_content contentHashes (assign_identity this i attestation)
  | Err e =>
      (exists sshPublicKey, sshpk_parseKey rt sshPublicKey = Err e) \/
      e = JsError "The provided key is not an ed25519 key"
  end.
Proof.
  destruct (includes_opt (identities this) (identity (assign_identity this i attestation)))
    eqn:Hlisted.
  - destruct (identity (assign_identity this i attestation)) as [idn |] eqn:Hid;
      [| discriminate].
    simpl in Hlisted.
    rewrite (@body_listed rt this contentHashes valid i attestation idn s Hid Hlisted).
    pose proof (publicKeyFromIdentity_trace idn s) as Htrace.
    assert (Hcalls : forall s1 : machine rt,
                     trace s1 = trace s ++ [Get (idn ++ "/.well-known/stateless-key")%string] ->
                     exists calls, trace s1 = trace s ++ calls /\
                                   Forall (key_lookup this) calls /\
                                   (List.length calls <= 1)%nat).
    { intros s1 H1. eexists. split; [exact H1 |]. split; [| simpl; lia].
      constructor; [| constructor]. exists idn. split; [now apply includes_In | reflexivity]. }
    destruct (publicKeyFromIdentity idn s) as [[sshPublicKey | e] s1]; simpl in Htrace.
    + destruct (sshpk_parseKey rt sshPublicKey) as [key | e] eqn:Hparse.
      * destruct (negb (type key =? "ed25519")).
        -- split; [now apply Hcalls | simpl; now right].
        -- destruct (verifyAttestation rt (assign_identity this i attestation)
                       (part_A_data key) contentHashes) as [[|] | e] eqn:Hverdict;
             (split; [now apply Hcalls | simpl]).
           ++ right. split; [reflexivity |]. split.
              ** exists idn. split; [exact Hid | now apply includes_In].
              ** exact (verifyAttestation_true_binds _ _ _ _ Hverdict).
           ++ now left.
           ++ destruct (verifyAttestation_returns rt (assign_identity this i attestation)
                          (part_A_data key) contentHashes) as [b Hb].
              congruence.
      * split; [now apply Hcalls | simpl; left; now exists sshPublicKey].
    + split; [now apply Hcalls | simpl; now left].
  - rewrite (@body_skips_unlisted rt this contentHashes valid i attestation s Hlisted).
    simpl. split; [| now left].
    exists []. split; [now rewrite app_nil_r |]. split; [constructor | simpl; lia].
Qed.

Lemma loop_facts (contentHashes : list string) (rest : list Attestation) :
  forall i valid (s : machine rt),
    (exists added,
       validAttestations_at_exit
         (fst (verifyAttestations_loop this contentHashes i rest valid s))
       = valid ++ added /\
       (List.length added <= List.length rest)%nat /\
       Forall (fun a => allow_listed this a /\ binds_content contentHashes a) added) /\
    (forall e,
       thrown (fst (verifyAttestations_loop this contentHashes i rest valid s)) = Some e ->
       (exists sshPublicKey, sshpk_parseKey rt sshPublicKey = Err e) \/
       e = JsError "The provided key is not an ed25519 key") /\
    (exists calls,
       trace (snd (verifyAttestations_loop this contentHashes i rest valid s))
       = trace s ++ calls /\
       Forall (key_lookup this) calls /\
       (List.length calls <= List.length rest)%nat).
Proof.
  induction rest as [| a rest IH]; intros i valid s; simpl.
  - split; [| split].
    + exists []. split; [now rewrite app_nil_r |]. split; [simpl; lia | constructor].
    + discriminate.
    + exists []. split; [now rewrite app_nil_r |]. split; [constructor | simpl; lia].
  - destruct (body_facts contentHashes valid i a s) as [[calls [Ht [Hk Hn]]] Hout].
    destruct (verifyAttestations_body this contentHashes valid i a s)
      as [[valid' | e] s1]; simpl in *.
    + destruct (IH (S i) valid' s1) as [[added [Hv [Hlen Hall]]] [Hthrown [calls' [Ht' [Hk' Hn']]]]].
      split; [| split].
      * destruct Hout as [-> | [-> [Hlisted Hbinds]]].
        -- exists added. split; [exact Hv |]. split; [lia | exact Hall].
        -- exists (assign_identity this i a :: added). split.
           ++ rewrite Hv, <- app_assoc. reflexivity.
           ++ split; [simpl; lia |]. constructor; [now split | exact Hall].
      * exact Hthrown.
      * exists (calls ++ calls'). split.
        -- rewrite Ht', Ht, <- app_assoc. reflexivity.
        -- split; [now apply Forall_app |]. rewrite length_app. lia.
    + split; [| split].
      * exists []. split; [now rewrite app_nil_r |]. split; [simpl; lia | constructor].
      * intros e' He'. injection He' as <-. exact Hout.
      * exists calls. split; [exact Ht |]. split; [exact Hk | lia].
Qed.

End PassInvariants.

Section PassTheorems.

Variable rt : Runtime.
Variable this : StatelessRpcClient.

Lemma pass_facts (response : AttestedJsonRpcResponse) (s : machine rt) :
  ((List.length (validAttestations_at_exit (fst (verifyAttestations_pass this response s)))
    <= List.length (attestations response))%nat /\
   Forall (fun a =>
             allow_listed this a /\
             exists contentHashes,
               hashContent rt (attested_content response) = Ok contentHashes /\
               binds_content contentHashes a)
          (validAttestations_at_exit (fst (verifyAttestations_pass this response s)))) /\
  (forall e,
     thrown (fst (verifyAttestations_pass this response s)) = Some e ->
     hashContent rt (attested_content response) = Err e \/
     (exists sshPublicKey, sshpk_parseKey rt sshPublicKey = Err e) \/
     e = JsError "The provided key is not an ed25519 key") /\
  (exists calls,
     trace (snd (verifyAttestations_pass this response s)) = trace s ++ calls /\
     Forall (key_lookup this) calls /\
     (List.length calls <= List.length (attestations response))%nat).
Proof.
  unfold verifyAttestations_pass. cbv zeta.
  destruct (hashContent rt (attested_content response)) as [contentHashes | e0]; simpl.
  - destruct (loop_facts this contentHashes (attestations response) 0 [] s)
      as [[added [Hv [Hlen Hall]]] [Hthrown Hcalls]].
    split; [| split].
    + rewrite Hv. simpl. split; [exact Hlen |].
      apply Forall_impl with (2 := Hall). intros a [Hl Hb].
      split; [exact Hl | now exists contentHashes].
    + intros e He. right. now apply Hthrown.
    + exact Hcalls.
  - split; [| split].
    + split; [lia | constructor].
    + intros e He. injection He as <-. now left.
    + exists []. split; [now rewrite app_nil_r |]. split; [constructor | simpl; lia].
Qed.

End PassTheorems.

(** X5.  A pass judges at most one attestation valid per attestation of the
    response, so a threshold above the number of attestations is never met:
    [verifyAttestations] does not answer [true]. *)
Theorem threshold_above_attestations_never_met (rt : Runtime)
    (this : StatelessRpcClient) (response : AttestedJsonRpcResponse) (s : machine rt) :
  (Z.of_nat (List.length (attestations response)) < minimumRequiredAttestations this)%Z ->
  (valid_count this response s <= List.length (attestations response))%nat /\
  fst (verifyAttestations this response s) <> Ok true.
Proof.
  intros Habove.
  destruct (pass_facts this response s) as [[Hlen _] _].
  split; [exact Hlen |].
  rewrite verifyAttestations_by_exit.
  destruct (thrown (fst (verifyAttestations_pass this response s))); simpl;
    [discriminate |].
  intros H. injection H as H. apply Z.leb_le in H.
  unfold valid_count in H. lia.
Qed.

Lemma threshold_above_attestations_never_met_witness :
  fst (verifyAttestations (Demo.client (Some 2%Z) None)
         (Demo.answer [Demo.single (Some Demo.attestor_a)])
         (Demo.boot (Demo.answer [])))
  <> Ok true.
Proof.
  exact (proj2 (@threshold_above_attestations_never_met
                  (Demo.serving (Demo.answer [])) (Demo.client (Some 2%Z) None)
                  (Demo.answer [Demo.single (Some Demo.attestor_a)])
                  (Demo.boot (Demo.answer [])) eq_refl)).
Defined.

(** X6.  Every attestation a pass has judged valid carries, after the
    positional fallback, an identity of the allow-list, and refers to the
    content of the response: in batch mode its [msgs] hold every content
    digest, otherwise its [msg] is one of the content digests. *)
Theorem valid_attestations_are_listed_and_bound (rt : Runtime)
    (this : StatelessRpcClient) (response : AttestedJsonRpcResponse) (s : machine rt) :
  Forall (fun a =>
            allow_listed this a /\
            exists contentHashes,
              hashContent rt (attested_content response) = Ok contentHashes /\
              binds_content contentHashes a)
         (validAttestations_at_exit (fst (verifyAttestations_pass this response s))).
Proof.
  exact (proj2 (proj1 (pass_facts this response s))).
Qed.

(** X7.  [verifyAttestations] throws for three reasons only: the content
    cannot be hashed, [sshpk.parseKey] rejects a key text, or a key is not
    an ed25519 key.  A failed key lookup or a bad signature never makes it
    throw. *)
Theorem verifyAttestations_throws_only_on (rt : Runtime) (this : StatelessRpcClient)
    (response : AttestedJsonRpcResponse) (s : machine rt) (e : exn) :
  fst (verifyAttestations this response s) = Err e ->
  hashContent rt (attested_content response) = Err e \/
  (exists sshPublicKey, sshpk_parseKey rt sshPublicKey = Err e) \/
  e = JsError "The provided key is not an ed25519 key".
Proof.
  rewrite verifyAttestations_by_exit.
  destruct (pass_facts this response s) as [_ [Hthrown _]].
  destruct (thrown (fst (verifyAttestations_pass this response s))) as [e0 |]; simpl;
    [| discriminate].
  intros H. injection H as <-. now apply Hthrown.
Qed.

Lemma verifyAttestations_throws_only_on_witness :
  hashContent Demo.idle (attested_content (Demo.answer [Demo.single (Some Demo.attestor_b)]))
    = Err (JsError "The provided key is not an ed25519 key") \/
  (exists sshPublicKey,
     sshpk_parseKey Demo.idle sshPublicKey
     = Err (JsError "The provided key is not an ed25519 key")) \/
  JsError "The provided key is not an ed25519 key"
  = JsError "The provided key is not an ed25519 key".
Proof.
  exact (@verifyAttestations_throws_only_on (Demo.serving (Demo.answer []))
           (Demo.client None None) (Demo.answer [Demo.single (Some Demo.attestor_b)])
           (Demo.boot (Demo.answer [])) _ eq_refl).
Defined.

(** X8.  Attestation verification fetches nothing but the keys of
    allow-listed identities, each from its well-known URL, and at most one
    per attestation of the response; it sends no POST. *)
Theorem verifyAttestations_fetches_listed_keys_only (rt : Runtime)
    (this : StatelessRpcClient) (response : AttestedJsonRpcResponse) (s : machine rt) :
  exists calls,
    trace (snd (verifyAttestations this response s)) = trace s ++ calls /\
    Forall (key_lookup this) calls /\
    (List.length calls <= List.length (attestations response))%nat.
Proof.
  destruct (pass_facts this response s) as [_ [_ Hcalls]].
  unfold verifyAttestations.
  destruct (verifyAttestations_pass this response s) as [exit s']. simpl in *.
  destruct (thrown exit); exact Hcalls.
Qed.

(** ** The threshold and the allow-list as parameters of a pass *)

Section ClientFacts.

Variable rt : Runtime.
Variables this this' : StatelessRpcClient.
Hypothesis same_identities : identities this' = identities this.

(** A pass reads the allow-list of the client and nothing else of it. *)
Lemma body_reads_identities_only contentHashes valid i attestation (s : machine rt) :
  verifyAttestations_body this' contentHashes valid i attestation s
  = verifyAttestations_body this contentHashes valid i attestation s.
Proof.
  unfold verifyAttestations_body, assign_identity. now rewrite same_identities.
Qed.

Lemma loop_reads_identities_only contentHashes rest :
  forall i valid (s : machine rt),
    verifyAttestations_loop this' contentHashes i rest valid s
    = verifyAttestations_loop this contentHashes i rest valid s.
Proof.
  induction rest as [| a rest IH]; intros i valid s; simpl; [reflexivity |].
  rewrite body_reads_identities_only.
  destruct (verifyAttestations_body this contentHashes valid i a s) as [[valid' | e] s'];
    [apply IH | reflexivity].
Qed.

Lemma pass_reads_identities_only response (s : machine rt) :
  verifyAttestations_pass this' response s = verifyAttestations_pass this response s.
Proof.
  unfold verifyAttestations_pass. cbv zeta.
  destruct (hashContent rt (attested_content response)); [| reflexivity].
  apply loop_reads_identities_only.
Qed.

End ClientFacts.

(** X9.  Attestation verification is monotone in the threshold: a response
    that meets a threshold meets every lower threshold of a client with the
    same allow-list, and its verification leaves the same state and makes
    the same fetches, whatever the client's URLs are. *)
Theorem lower_threshold_still_met (rt : Runtime) (this this' : StatelessRpcClient)
    (response : AttestedJsonRpcResponse) (s s1 : machine rt) :
  identities this' = identities this ->
  (minimumRequiredAttestations this' <= minimumRequiredAttestations this)%Z ->
  verifyAttestations this response s = (Ok true, s1) ->
  verifyAttestations this' response s = (Ok true, s1).
Proof.
  intros Hids Hle. unfold verifyAttestations.
  rewrite (pass_reads_identities_only this this' Hids response s).
  destruct (verifyAttestations_pass this response s) as [exit s'].
  destruct (thrown exit); [discriminate |].
  intros H. injection H as H <-. f_equal. f_equal.
  apply Z.leb_le. apply Z.leb_le in H. lia.
Qed.

Lemma lower_threshold_still_met_witness :
  verifyAttestations (Demo.client (Some 0%Z) (Some Demo.prover))
    (Demo.answer [Demo.single None]) (Demo.boot (Demo.answer []))
  = (Ok true, Demo.after (Demo.answer []) [Get (Demo.well_known Demo.attestor_a)]).
Proof.
  exact (@lower_threshold_still_met (Demo.serving (Demo.answer []))
           (Demo.client (Some 1%Z) None) (Demo.client (Some 0%Z) (Some Demo.prover))
           (Demo.answer [Demo.single None]) (Demo.boot (Demo.answer []))
           (Demo.after (Demo.answer []) [Get (Demo.well_known Demo.attestor_a)])
           eq_refl ltac:(vm_compute; discriminate) eq_refl).
Defined.

(** X10.  The positional fallback reads [identities[i]] without a bound
    check: an attestation without identity at an index past the end of the
    allow-list gets no identity and is skipped without any fetch, whatever
    it carries. *)
Theorem fallback_past_allow_list_is_skipped (rt : Runtime) (this : StatelessRpcClient)
    (contentHashes : list string) (validAttestations : list Attestation) (i : nat)
    (attestation : Attestation) (rest : list Attestation) (s : machine rt) :
  truthy_string (identity attestation) = false ->
  (List.length (identities this) <= i)%nat ->
  identity (assign_identity this i attestation) = None /\
  verifyAttestations_loop this contentHashes i (attestation :: rest) validAttestations s
  = verifyAttestations_loop this contentHashes (S i) rest validAttestations s.
Proof.
  intros Hfalsy Hpast.
  assert (Hnone : identity (assign_identity this i attestation) = None).
  { unfold assign_identity. rewrite Hfalsy. simpl. now apply nth_error_None. }
  split; [exact Hnone |]. simpl.
  rewrite (@body_skips_unlisted rt this contentHashes validAttestations i attestation s);
    [reflexivity | now rewrite Hnone].
Qed.

Lemma fallback_past_allow_list_is_skipped_witness :
  verifyAttestations_loop (Demo.client None None) [Demo.digest_0x1] 3
    [Demo.single None] [] (Demo.boot (Demo.answer []))
  = ({| validAttestations_at_exit := []; thrown := None |}, Demo.boot (Demo.answer [])).
Proof.
  exact (proj2 (@fallback_past_allow_list_is_skipped (Demo.serving (Demo.answer []))
                  (Demo.client None None) [Demo.digest_0x1] [] 3 (Demo.single None) []
                  (Demo.boot (Demo.answer [])) eq_refl ltac:(vm_compute; lia))).
Defined.

(** X11.  A response whose [result] is [null] or absent and that has no
    [error] has no content: what is hashed is [undefined].  On a runtime
    where [JSON.stringify(undefined)] is [undefined] and hashing [undefined]
    throws, as in Node, [verifyAttestations] and [request] throw that
    exception for every such response, before any attestation is looked at
    and whatever the threshold is. *)
Theorem null_result_cannot_be_released (rt : Runtime) (this : StatelessRpcClient)
    (response : AttestedJsonRpcResponse) (e : exn) (s : machine rt) :
  JSON_stringify rt JUndefined = None ->
  sha256_hex rt None = Err e ->
  result response = JNull \/ result response = JUndefined ->
  error response = JUndefined ->
  attested_content response = JUndefined /\
  verifyAttestations this response s = (Err e, s) /\
  release this (BodySingle response) s = (Err e, s).
Proof.
  intros Hjson Hsha Hresult Herror.
  assert (Hcontent : attested_content response = JUndefined).
  { unfold attested_content. rewrite Herror. destruct Hresult as [-> | ->]; reflexivity. }
  assert (Hverify : verifyAttestations this response s = (Err e, s)).
  { unfold verifyAttestations, verifyAttestations_pass. cbv zeta.
    rewrite Hcontent. simpl. rewrite Hjson, Hsha. reflexivity. }
  split; [exact Hcontent |]. split; [exact Hverify |].
  rewrite release_by_verdict, Hverify. reflexivity.
Qed.

Lemma null_result_cannot_be_released_witness :
  release (Demo.client (Some 0%Z) None)
    (BodySingle {| result := JNull; error := JUndefined;
                   attestations := [Demo.single (Some Demo.attestor_a)] |})
    (Demo.boot (Demo.answer []))
  = (Err JsTypeError, Demo.boot (Demo.answer [])).
Proof.
  exact (proj2 (proj2 (@null_result_cannot_be_released (Demo.serving (Demo.answer []))
                         (Demo.client (Some 0%Z) None)
                         {| result := JNull; error := JUndefined;
                            attestations := [Demo.single (Some Demo.attestor_a)] |}
                         JsTypeError (Demo.boot (Demo.answer []))
                         eq_refl eq_refl (or_introl eq_refl) eq_refl))).
Defined.

(** ** What [request] hands out *)

Section ReleaseFacts.

Variable rt : Runtime.
Variable this : StatelessRpcClient.

Lemma verifyAttestations_true_count (response : AttestedJsonRpcResponse) (s s' : machine rt) :
  verifyAttestations this response s = (Ok true, s') ->
  (minimumRequiredAttestations this <= Z.of_nat (valid_count this response s))%Z.
Proof.
  rewrite verifyAttestations_by_exit.
  destruct (thrown (fst (verifyAttestations_pass this response s))); [discriminate |].
  intros H. injection H as H _. now apply Z.leb_le.
Qed.

(** A value returned by [attested_request] is the result of a single
    response of the main endpoint, without error, whose attestations met
    the threshold. *)
Lemma attested_request_returns (method : string) (params : list jsvalue)
    (v : jsvalue) (s s' : machine rt) :
  attested_request this method params s = (Ok v, s') ->
  exists response s1,
    sendJsonRpcRequest (rpcUrl this)
      {| id := Date_now rt (world s); method := method; params := params |} s
    = (Ok (BodySingle response), s1) /\
    verifyAttestations this response s1 = (Ok true, s') /\
    (minimumRequiredAttestations this <= Z.of_nat (valid_count this response s1))%Z /\
    truthy (error response) = false /\
    v = result response.
Proof.
  unfold attested_request, bindM at 1, now. unfold bindM at 1.
  destruct (sendJsonRpcRequest (rpcUrl this) _ s) as [[[response | responses] | e] s1];
    try discriminate.
  rewrite release_by_verdict.
  destruct (verifyAttestations this response s1) as [[[|] | e] s2] eqn:Hverify;
    try discriminate.
  destruct (truthy (error response)) eqn:Herror; [discriminate |].
  intros H. injection H as <- <-.
  exists response, s1. split; [reflexivity |]. split; [exact Hverify |].
  split; [exact (verifyAttestations_true_count _ _ Hverify) |]. now split.
Qed.

End ReleaseFacts.

(** X12.  [request] returns a value only if the main endpoint answered with
    a single response without error whose attestations met the threshold;
    the value is the [result] of that response, and [request] makes no fetch
    after the attestation verification. *)
Theorem request_returns_attested_results_only (rt : Runtime) (this : StatelessRpcClient)
    (method : string) (params : list jsvalue) (v : jsvalue) (s s' : machine rt) :
  request this method params s = (Ok v, s') ->
  exists response s0 s1,
    sendJsonRpcRequest (rpcUrl this)
      {| id := Date_now rt (world s0); method := method; params := params |} s0
    = (Ok (BodySingle response), s1) /\
    verifyAttestations this response s1 = (Ok true, s') /\
    (minimumRequiredAttestations this <= Z.of_nat (valid_count this response s1))%Z /\
    truthy (error response) = false /\
    v = result response.
Proof.
  unfold request, bindM at 1.
  destruct ((if proof_required this method
             then verifyStatelessProof this (JArr params)
             else ret tt) s) as [[u | e] s0]; [| discriminate].
  intros H.
  destruct (@attested_request_returns rt this method params v s0 s' H)
    as [response [s1 Hrest]].
  now exists response, s0, s1.
Qed.

Lemma request_returns_attested_results_only_witness :
  exists response s0 s1,
    sendJsonRpcRequest Demo.endpoint
      {| id := Date_now (Demo.serving (Demo.answer [Demo.single None])) (world s0);
         method := "eth_blockNumber"; params := [] |} s0
    = (Ok (BodySingle response), s1) /\
    verifyAttestations (Demo.client None None) response s1
    = (Ok true,
       Demo.after (Demo.answer [Demo.single None])
         [Post Demo.endpoint
            {| id := 1700000000000; method := "eth_blockNumber"; params := [] |};
          Get (Demo.well_known Demo.attestor_a)]) /\
    (minimumRequiredAttestations (Demo.client None None)
     <= Z.of_nat (valid_count (Demo.client None None) response s1))%Z /\
    truthy (error response) = false /\
    JStr "0x1" = result response.
Proof.
  exact (@request_returns_attested_results_only
           (Demo.serving (Demo.answer [Demo.single None])) (Demo.client None None)
           "eth_blockNumber" [] (JStr "0x1") (Demo.boot (Demo.answer [Demo.single None]))
           (Demo.after (Demo.answer [Demo.single None])
              [Post Demo.endpoint
                 {| id := 1700000000000; method := "eth_blockNumber"; params := [] |};
               Get (Demo.well_known Demo.attestor_a)])
           eq_refl).
Defined.

(** X13.  The transport made from a configuration that names no threshold
    and no prover never calls a prover: whatever the method, its first
    fetch is the request to the configured endpoint and the others are key
    lookups; and it returns a value only if at least one attestation of the
    response was judged valid. *)
Theorem default_transport_needs_one_attestation (rt : Runtime)
    (config : Config.StatelessClientConfig)
    (method : string) (params : list jsvalue) (s : machine rt) :
  Config.minimumRequiredAttestations config = None ->
  Config.proverUrl config = None ->
  (exists lookups,
     trace (snd (viemCompatibleRequest config method params s))
     = trace s ++ Post (Config.rpcUrl config)
                    {| id := Date_now rt (world s); method := method; params := params |}
                 :: lookups /\
     Forall (key_lookup (createStatelessTransport config)) lookups) /\
  (forall v s',
     viemCompatibleRequest config method params s = (Ok v, s') ->
     exists response s1,
       verifyAttestations (createStatelessTransport config) response s1 = (Ok true, s') /\
       (1 <= valid_count (createStatelessTransport config) response s1)%nat /\
       v = result response).
Proof.
  intros Hthreshold Hprover.
  assert (Heq : viemCompatibleRequest config method params s
                = attested_request (createStatelessTransport config) method params s).
  { unfold viemCompatibleRequest, request, proof_required, createStatelessTransport.
    simpl. rewrite Hprover. reflexivity. }
  assert (Hone : minimumRequiredAttestations (createStatelessTransport config) = 1%Z).
  { unfold createStatelessTransport. simpl. now rewrite Hthreshold. }
  split.
  - rewrite Heq.
    exact (attested_request_trace (createStatelessTransport config) method params s).
  - intros v s' H. rewrite Heq in H.
    destruct (@attested_request_returns rt (createStatelessTransport config) method params
                v s s' H) as [response [s1 [_ [Hv [Hcount [_ Hres]]]]]].
    exists response, s1. split; [exact Hv |]. split; [| exact Hres].
    rewrite Hone in Hcount. lia.
Qed.

Lemma default_transport_needs_one_attestation_witness :
  exists lookups,
    trace (snd (viemCompatibleRequest
                  {| Config.rpcUrl := Demo.endpoint;
                     Config.identities := [Demo.attestor_a];
                     Config.minimumRequiredAttestations := None;
                     Config.proverUrl := None |}
                  "eth_call" [] (Demo.boot (Demo.answer [Demo.single None]))))
    = [] ++ Post Demo.endpoint
              {| id := 1700000000000; method := "eth_call"; params := [] |} :: lookups /\
    Forall (key_lookup (createStatelessTransport
                          {| Config.rpcUrl := Demo.endpoint;
                             Config.identities := [Demo.attestor_a];
                             Config.minimumRequiredAttestations := None;
                             Config.proverUrl := None |})) lookups.
Proof.
  exact (proj1 (@default_transport_needs_one_attestation
                  (Demo.serving (Demo.answer [Demo.single None]))
                  {| Config.rpcUrl := Demo.endpoint;
                     Config.identities := [Demo.attestor_a];
                     Config.minimumRequiredAttestations := None;
                     Config.proverUrl := None |}
                  "eth_call" [] (Demo.boot (Demo.answer [Demo.single None]))
                  eq_refl eq_refl)).
Defined.

(** ** Helpers of the proof verifier *)

Lemma substring_whole (s : string) : substring 0 (String.length s) s = s.
Proof. induction s as [| a s IH]; simpl; [reflexivity | now rewrite IH]. Qed.

Lemma one_line_tail (a : ascii) (s : string) :
  one_line (String a s) -> is_line_terminator a = false /\ one_line s.
Proof. unfold one_line. simpl. intros H. inversion H; subst. now split. Qed.

(** The number of matches of [/.{1,2}/g] on a string without line
    terminator: half its length, rounded up. *)
Lemma match_pairs_length (s : string) :
  (one_line s -> List.length (match_pairs s) = Nat.div2 (S (String.length s))) /\
  (forall a, one_line (String a s) ->
             List.length (match_pairs (String a s))
             = Nat.div2 (S (String.length (String a s)))).
Proof.
  induction s as [| b s [IH1 IH2]].
  - split.
    + reflexivity.
    + intros a Ha. apply one_line_tail in Ha as [Ha _]. simpl. now rewrite Ha.
  - split.
    + intros H. now apply IH2.
    + intros a Ha. apply one_line_tail in Ha as [Ha Hb].
      pose proof Hb as Hb'. apply one_line_tail in Hb' as [Hb' Hs].
      change (match_pairs (String a (String b s)))
        with (if is_line_terminator a then match_pairs (String b s)
              else if is_line_terminator b then String a EmptyString :: match_pairs s
                   else String a (String b EmptyString) :: match_pairs s).
      rewrite Ha, Hb'. simpl List.length. rewrite (IH1 Hs). reflexivity.
Qed.

(** X14.  On a string without line terminator that does not itself start
    with [0x], [fromHexString] returns one byte per pair of characters, the
    last byte coming from a single character when the length is odd, and
    returns the same bytes when the string is given with a [0x] prefix. *)
Theorem fromHexString_bytes (rt : Runtime) (s : string) :
  one_line s ->
  prefix "0x" s = false ->
  exists bytes,
    fromHexString rt (JStr s) = Ok bytes /\
    fromHexString rt (JStr ("0x" ++ s)) = Ok bytes /\
    List.length bytes = Nat.div2 (S (String.length s)).
Proof.
  intros Hline Hprefix.
  exists (map (parseInt16_u8 rt) (match_pairs s)).
  split; [| split].
  - unfold fromHexString. now rewrite Hprefix.
  - unfold fromHexString.
    assert (Hp : prefix "0x" ("0x" ++ s)%string = true)
      by (apply prefix_correct; destruct s; reflexivity).
    rewrite Hp.
    assert (Hs : substring 2 (String.length ("0x" ++ s)%string - 2) ("0x" ++ s)%string = s)
      by (simpl; rewrite Nat.sub_0_r; apply substring_whole).
    now rewrite Hs.
  - rewrite length_map. now apply match_pairs_length.
Qed.

Lemma fromHexString_bytes_witness :
  exists bytes,
    fromHexString Demo.idle (JStr "abc") = Ok bytes /\
    fromHexString Demo.idle (JStr "0xabc") = Ok bytes /\
    List.length bytes = 2%nat.
Proof.
  refine (@fromHexString_bytes Demo.idle "abc" _ eq_refl).
  repeat constructor.
Defined.

Lemma lookup_absent (k : string) (fields : list (string * jsvalue)) :
  ~ In k (map fst fields) -> lookup k fields = JUndefined.
Proof.
  induction fields as [| [k' v] fields IH]; simpl; intros H; [reflexivity |].
  destruct (String.eqb_spec k k') as [-> | Hne]; [tauto |].
  apply IH. tauto.
Qed.

Lemma filter_defined_keys (fields : list (string * jsvalue)) (k : string) :
  In k (map fst (filter (fun kv => negb (is_undefined (snd kv))) fields)) ->
  In k (map fst fields).
Proof.
  rewrite !in_map_iff. intros [kv [Hk Hin]]. apply filter_In in Hin.
  exists kv. tauto.
Qed.

(** X15.  For an object (whose property names are distinct),
    [extractDefinedProperties] returns an object without any [undefined]
    property, on which every property reads as on the original; applying
    it again changes nothing.  On [null] and [undefined] it throws a
    TypeError. *)
Theorem extractDefinedProperties_keeps_reads (fields : list (string * jsvalue)) :
  NoDup (map fst fields) ->
  exists kept,
    extractDefinedProperties (JObj fields) = Ok (JObj kept) /\
    (forall k, get_property (JObj kept) k = get_property (JObj fields) k) /\
    Forall (fun kv => snd kv <> JUndefined) kept /\
    extractDefinedProperties (JObj kept) = Ok (JObj kept) /\
    extractDefinedProperties JNull = Err JsTypeError /\
    extractDefinedProperties JUndefined = Err JsTypeError.
Proof.
  intros Hnodup.
  exists (filter (fun kv => negb (is_undefined (snd kv))) fields).
  split; [reflexivity |]. split; [| split; [| split; [| split; reflexivity]]].
  - intros k. simpl. induction fields as [| [k' v] fields IH]; simpl; [reflexivity |].
    inversion Hnodup as [| ? ? Hnotin Hrest]; subst.
    destruct (is_undefined v) eqn:Hv; simpl.
    + destruct (String.eqb_spec k k') as [-> | Hne]; [| now apply IH].
      destruct v; try discriminate.
      apply lookup_absent. intros Hin. apply Hnotin.
      now apply filter_defined_keys.
    + destruct (k =? k')%string; [reflexivity | now apply IH].
  - apply Forall_forall. intros kv Hin. apply filter_In in Hin as [_ Hdef].
    destruct (snd kv); try discriminate; simpl in Hdef; discriminate.
  - unfold extractDefinedProperties. simpl. f_equal. f_equal.
    induction fields as [| [k' v] fields IH]; simpl; [reflexivity |].
    inversion Hnodup; subst.
    destruct (is_undefined v) eqn:Hv; simpl; [now apply IH |].
    rewrite Hv. simpl. f_equal. now apply IH.
Qed.

Lemma extractDefinedProperties_keeps_reads_witness :
  exists kept,
    extractDefinedProperties Demo.call_object = Ok (JObj kept) /\
    (forall k, get_property (JObj kept) k = get_property Demo.call_object k) /\
    Forall (fun kv => snd kv <> JUndefined) kept /\
    extractDefinedProperties (JObj kept) = Ok (JObj kept) /\
    extractDefinedProperties JNull = Err JsTypeError /\
    extractDefinedProperties JUndefined = Err JsTypeError.
Proof.
  refine (@extractDefinedProperties_keeps_reads
            [("to", JStr "0x01"); ("data", JStr "0x"); ("gas", JUndefined)] _).
  repeat constructor; simpl; intuition discriminate.
Defined.

(** ** The network functions *)

(** X16.  [publicKeyFromIdentity] makes one GET, to the identity followed by
    [/.well-known/stateless-key].  It returns a key only when the status is
    exactly 200, and the key is then the text of the response; any other
    status, another 2xx included, makes it throw. *)
Theorem publicKeyFromIdentity_accepts_200_only (rt : Runtime) (identity : string)
    (s : machine rt) :
  trace (snd (publicKeyFromIdentity identity s))
  = trace s ++ [Get (identity ++ "/.well-known/stateless-key")%string] /\
  (forall key s',
     publicKeyFromIdentity identity s = (Ok key, s') ->
     exists http,
       fst (fetch rt (world s) (Get (identity ++ "/.well-known/stateless-key")%string))
       = Ok http /\
       status http = 200%Z /\ text http = Ok key) /\
  (forall http w,
     fetch rt (world s) (Get (identity ++ "/.well-known/stateless-key")%string)
     = (Ok http, w) ->
     status http <> 200%Z ->
     fst (publicKeyFromIdentity identity s)
     = Err (JsError ("Could not fetch public key from "
                     ++ (identity ++ "/.well-known/stateless-key"))%string)).
Proof.
  split; [apply publicKeyFromIdentity_trace |].
  unfold publicKeyFromIdentity, bindM, do_fetch. cbv zeta.
  destruct (fetch rt (world s) (Get (identity ++ "/.well-known/stateless-key")%string))
    as [[http | e] w]; simpl.
  - split.
    + intros key s'. destruct (Z.eqb_spec (status http) 200) as [H200 | Hnot]; simpl.
      * unfold lift. intros H. injection H as H _. now exists http.
      * unfold throw. discriminate.
    + intros http' w' H Hnot. injection H as <- <-.
      apply Z.eqb_neq in Hnot. now rewrite Hnot.
  - split; [discriminate | discriminate].
Qed.

Section EndpointFacts.

Variable rt : Runtime.
Variable this : StatelessRpcClient.

(** [sendJsonRpcRequest], by what [fetch] answers. *)
Lemma sendJsonRpcRequest_cases (url : string) (request : JsonRpcRequest) (s : machine rt) :
  sendJsonRpcRequest url request s =
  match fetch rt (world s) (Post url request) with
  | (Ok http, w) =>
      (if ok http then json http
       else Err (JsError ("HTTP error! status: " ++ show_Z (status http))%string),
       {| world := w; trace := trace s ++ [Post url request] |})
  | (Err e, w) => (Err e, {| world := w; trace := trace s ++ [Post url request] |})
  end.
Proof.
  unfold sendJsonRpcRequest, bindM, do_fetch.
  destruct (fetch rt (world s) (Post url request)) as [[http | e] w]; [| reflexivity].
  destruct (ok http); reflexivity.
Qed.

End EndpointFacts.

(** X17.  When no proof is required, [request] makes one fetch, the POST to
    the main endpoint, before anything else, and unless the answer is a
    single JSON-RPC response it throws right after it, without looking at
    any attestation: the HTTP error with the status when the status is not
    2xx (the body is not read), the exception of [fetch] or of the JSON
    parser when they throw, and the batch error when the body is an array. *)
Theorem request_needs_a_single_response (rt : Runtime) (this : StatelessRpcClient)
    (method : string) (params : list jsvalue) (s : machine rt)
    (r : completion HttpResponse) (w : World rt) :
  proof_required this method = false ->
  fetch rt (world s)
    (Post (rpcUrl this)
       {| id := Date_now rt (world s); method := method; params := params |})
  = (r, w) ->
  request this method params s =
  let s1 := {| world := w;
               trace := trace s ++ [Post (rpcUrl this)
                                      {| id := Date_now rt (world s); method := method;
                                         params := params |}] |} in
  match r with
  | Err e => (Err e, s1)
  | Ok http =>
      if ok http
      then match json http with
           | Ok (BodySingle response) => release this (BodySingle response) s1
           | Ok (BodyBatch _) =>
               (Err (JsError "Unexpected batch response for single request"), s1)
           | Err e => (Err e, s1)
           end
      else (Err (JsError ("HTTP error! status: " ++ show_Z (status http))%string), s1)
  end.
Proof.
  intros Hreq Hfetch.
  assert (Hrequest : request this method params s = attested_request this method params s).
  { unfold request, bindM. now rewrite Hreq. }
  rewrite Hrequest. unfold attested_request, bindM at 1, now. unfold bindM at 1.
  rewrite sendJsonRpcRequest_cases, Hfetch. cbv zeta.
  destruct r as [http | e]; [| reflexivity].
  destruct (ok http); [| reflexivity].
  destruct (json http) as [[response | responses] | e]; reflexivity.
Qed.

Lemma request_needs_a_single_response_witness :
  request (constructor Demo.prover [Demo.attestor_a] None None) "eth_call" []
    (Demo.boot (Demo.answer [Demo.single None]))
  = (Err (JsError "HTTP error! status: 503"),
     Demo.after (Demo.answer [Demo.single None])
       [Post Demo.prover {| id := 1700000000000; method := "eth_call"; params := [] |}]).
Proof.
  exact (@request_needs_a_single_response
           (Demo.serving (Demo.answer [Demo.single None]))
           (constructor Demo.prover [Demo.attestor_a] None None) "eth_call" []
           (Demo.boot (Demo.answer [Demo.single None]))
           (Ok {| ok := false; status := 503%Z; text := Ok "Service Unavailable";
                  json := Err (Foreign "SyntaxError") |}) tt
           eq_refl eq_refl).
Defined.

(** ** The calls to the prover *)

Section ProverFacts.

Variable rt : Runtime.
Variable this : StatelessRpcClient.

(** [sendToProver] when a prover URL is configured, by what
    [sendJsonRpcRequest] answers. *)
Lemma sendToProver_cases (url method : string) (params : list jsvalue) (s : machine rt) :
  proverUrl this = Some url -> url <> "" ->
  sendToProver this method params s =
  match sendJsonRpcRequest url
          {| id := Date_now rt (world s); method := method; params := params |} s with
  | (Ok (BodySingle response), s1) =>
      if truthy (error response)
      then (Err (rpc_error response), s1)
      else (Ok (result response), s1)
  | (Ok (BodyBatch _), s1) =>
      (Err (JsError "Unexpected batch response for single request to prover"), s1)
  | (Err e, s1) => (Err e, s1)
  end.
Proof.
  intros Hurl Hne.
  assert (Htruthy : truthy_string (Some url) = true) by now apply truthy_string_Some.
  unfold sendToProver. rewrite Hurl, Htruthy.
  change (negb true) with false. cbv iota.
  unfold bindM at 1, now. unfold bindM at 1.
  destruct (sendJsonRpcRequest url _ s) as [[[response | responses] | e] s1];
    try reflexivity.
  destruct (truthy (error response)); reflexivity.
Qed.

(** Without a prover URL, nothing is sent. *)
Lemma sendToProver_unset (method : string) (params : list jsvalue) (s : machine rt) :
  truthy_string (proverUrl this) = false ->
  sendToProver this method params s = (Err (JsError "Prover URL is not set"), s).
Proof.
  unfold sendToProver. destruct (proverUrl this) as [url |]; [| reflexivity].
  intros ->. reflexivity.
Qed.

(** A value returned by [sendToProver] came with exactly one POST to the
    prover. *)
Lemma sendToProver_returns (method : string) (params : list jsvalue) (v : jsvalue)
    (s s' : machine rt) :
  sendToProver this method params s = (Ok v, s') ->
  exists url,
    proverUrl this = Some url /\ url <> "" /\
    trace s' = trace s ++ [Post url {| id := Date_now rt (world s); method := method;
                                       params := params |}].
Proof.
  intros H.
  destruct (truthy_string (proverUrl this)) eqn:Htruthy.
  - destruct (proverUrl this) as [url |] eqn:Hurl; [| discriminate].
    apply truthy_string_Some in Htruthy.
    exists url. split; [reflexivity |]. split; [exact Htruthy |].
    pose proof (@sendToProver_trace rt this url method params s Hurl Htruthy) as Htrace.
    now rewrite H in Htrace.
  - rewrite (sendToProver_unset method params s Htruthy) in H. discriminate.
Qed.

End ProverFacts.

(** X18.  [sendToProver] returns a value only when a prover URL is
    configured, the prover answered the one POST it was sent with a 2xx
    status and a single JSON-RPC response, and that response carries no
    (truthy) error; the value is the [result] of the response.  Without a
    prover URL it throws without sending anything. *)
Theorem sendToProver_returns_results_only (rt : Runtime) (this : StatelessRpcClient)
    (method : string) (params : list jsvalue) (s : machine rt) :
  (truthy_string (proverUrl this) = false ->
   sendToProver this method params s = (Err (JsError "Prover URL is not set"), s)) /\
  (forall v s',
     sendToProver this method params s = (Ok v, s') ->
     exists url http response w,
       proverUrl this = Some url /\ url <> "" /\
       fetch rt (world s)
         (Post url {| id := Date_now rt (world s); method := method; params := params |})
       = (Ok http, w) /\
       ok http = true /\
       json http = Ok (BodySingle response) /\
       truthy (error response) = false /\
       v = result response /\
       s' = {| world := w;
               trace := trace s ++ [Post url {| id := Date_now rt (world s);
                                                method := method; params := params |}] |}).
Proof.
  split; [apply sendToProver_unset |].
  intros v s' H.
  destruct (@sendToProver_returns rt this method params v s s' H) as [url [Hurl [Hne _]]].
  rewrite (@sendToProver_cases rt this url method params s Hurl Hne) in H.
  rewrite sendJsonRpcRequest_cases in H.
  destruct (fetch rt (world s) _) as [[http | e] w] eqn:Hfetch; [| discriminate].
  destruct (ok http) eqn:Hok; [| discriminate].
  destruct (json http) as [[response | responses] | e] eqn:Hjson; try discriminate.
  destruct (truthy (error response)) eqn:Herror; [discriminate |].
  injection H as <- <-.
  exists url, http, response, w. repeat split; assumption || reflexivity.
Qed.

Section ProtocolFacts.

Variable rt : Runtime.
Variable this : StatelessRpcClient.

(** The storage loop works on the proofs it was given: it fetches nothing. *)
Lemma verify_storage_state (storageProof : jsvalue) (storageKeys : list jsvalue) :
  forall i (storageTrie : Trie rt) (s : machine rt),
    snd (verify_storage storageProof i storageKeys storageTrie s) = s.
Proof.
  induction storageKeys as [| k keys IH]; intros i storageTrie s; simpl; [reflexivity |].
  unfold bindM at 1, lift at 1.
  destruct (bindR (read_index storageProof i) _) as [proofBuffer | e]; [| reflexivity].
  unfold bindM at 1, lift at 1.
  destruct (Trie_updateFromProof rt storageTrie proofBuffer) as [storageTrie' | e];
    [| reflexivity].
  unfold bindM at 1, lift at 1.
  destruct (bindR (fromHexString rt k) _) as [[v |] | e]; try reflexivity.
  apply IH.
Qed.

End ProtocolFacts.

(** X19.  When [verifyStatelessProof] returns, it has made exactly four
    fetches, all POSTs to the prover, in this order: [eth_blockNumber];
    [eth_getBlockByNumber] for the block number the first call returned;
    [eth_createAccessList] for the defined properties of the call object
    (the first parameter); and [eth_getProof] for the address and storage
    keys of the first entry of the access list the third call returned, at
    the block number of the first call.  Each call starts in the state the
    previous one left, and the state at the end is the state after the
    fourth. *)
Theorem verifyStatelessProof_protocol (rt : Runtime) (this : StatelessRpcClient)
    (params : jsvalue) (u : unit) (s s' : machine rt) :
  verifyStatelessProof this params s = (Ok u, s') ->
  exists url (s1 s2 s3 : machine rt) latestBlockNumber block createAccessListParams created
         accessList first address storageKeys proved,
    proverUrl this = Some url /\ url <> "" /\
    sendToProver this "eth_blockNumber" [] s = (Ok latestBlockNumber, s1) /\
    sendToProver this "eth_getBlockByNumber" [latestBlockNumber; JBool false] s1
    = (Ok block, s2) /\
    extractDefinedProperties
      (match params with JArr items => nth 0 items JUndefined | _ => params end)
    = Ok createAccessListParams /\
    sendToProver this "eth_createAccessList" [createAccessListParams] s2
    = (Ok created, s3) /\
    read_property created "accessList" = Ok accessList /\
    read_index accessList 0 = Ok first /\
    read_property first "address" = Ok address /\
    read_property first "storageKeys" = Ok storageKeys /\
    sendToProver this "eth_getProof" [address; storageKeys; latestBlockNumber] s3
    = (Ok proved, s') /\
    trace s' =
    trace s ++
    [Post url {| id := Date_now rt (world s); method := "eth_blockNumber"; params := [] |};
     Post url {| id := Date_now rt (world s1); method := "eth_getBlockByNumber";
                 params := [latestBlockNumber; JBool false] |};
     Post url {| id := Date_now rt (world s2); method := "eth_createAccessList";
                 params := [createAccessListParams] |};
     Post url {| id := Date_now rt (world s3); method := "eth_getProof";
                 params := [address; storageKeys; latestBlockNumber] |}].
Proof.
  unfold verifyStatelessProof.
  destruct (negb (truthy_string (proverUrl this))); [discriminate |].
  unfold bindM at 1.
  destruct (sendToProver this "eth_blockNumber" [] s) as [[n | e] s1] eqn:H1;
    [| discriminate].
  unfold bindM at 1.
  destruct (sendToProver this "eth_getBlockByNumber" [n; JBool false] s1)
    as [[block | e] s2] eqn:H2; [| discriminate].
  unfold bindM at 1, lift at 1.
  destruct (read_property block "stateRoot") as [stateRootHex | e]; [| discriminate].
  unfold bindM at 1, lift at 1.
  destruct (fromHexString rt stateRootHex) as [stateRoot | e]; [| discriminate].
  unfold bindM at 1, lift at 1.
  destruct (match params with
            | JArr items => let firstParam := nth 0 items JUndefined in
                            extractDefinedProperties firstParam
            | _ => extractDefinedProperties params
            end) as [p | e] eqn:Hp; [| discriminate].
  unfold bindM at 1.
  destruct (sendToProver this "eth_createAccessList" [p] s2) as [[created | e] s3] eqn:H3;
    [| discriminate].
  unfold bindM at 1, lift at 1.
  destruct (read_property created "accessList") as [accessList | e] eqn:Hlist;
    [| discriminate].
  unfold bindM at 1, lift at 1.
  destruct (read_index accessList 0) as [first | e] eqn:Hfirst; [| discriminate].
  unfold bindM at 1, lift at 1.
  destruct (read_property first "address") as [address | e] eqn:Haddress; [| discriminate].
  unfold bindM at 1, lift at 1.
  destruct (read_property first "storageKeys") as [storageKeys | e] eqn:Hkeys;
    [| discriminate].
  unfold bindM at 1.
  destruct (sendToProver this "eth_getProof" [address; storageKeys; n] s3)
    as [[proved | e] s4] eqn:H4; [| discriminate].
  unfold bindM at 1, lift at 1.
  destruct (read_property proved "accountProof") as [accountProof | e]; [| discriminate].
  unfold bindM at 1, lift at 1.
  destruct (read_property proved "storageProof") as [storageProof | e]; [| discriminate].
  unfold bindM at 1, lift at 1.
  destruct (read_property proved "storageHash") as [storageHashHex | e]; [| discriminate].
  unfold bindM at 1, lift at 1.
  destruct (fromHexString rt storageHashHex) as [storageHash | e]; [| discriminate].
  unfold bindM at 1, lift at 1.
  destruct (Trie_new rt stateRoot) as [trie | e]; [| discriminate].
  unfold bindM at 1, lift at 1.
  destruct (array_map accountProof (fromHexString rt)) as [nodes | e]; [| discriminate].
  unfold bindM at 1, lift at 1.
  destruct (Trie_updateFromProof rt trie nodes) as [trie' | e]; [| discriminate].
  unfold bindM at 1, lift at 1.
  destruct (fromHexString rt address) as [accessListAddress | e]; [| discriminate].
  unfold bindM at 1, lift at 1.
  destruct (Trie_get rt trie' accessListAddress true) as [[val |] | e]; try discriminate.
  unfold bindM at 1, lift at 1.
  destruct (Trie_new rt storageHash) as [storageTrie | e]; [| discriminate].
  unfold bindM at 1, lift at 1.
  destruct (array_elements storageKeys) as [keys | e]; [| discriminate].
  intros Hstorage.
  pose proof (verify_storage_state storageProof keys 0 storageTrie s4) as Hstate.
  rewrite Hstorage in Hstate. simpl in Hstate. subst s'.
  destruct (sendToProver_returns _ _ _ _ H1) as [url [Hurl [Hne T1]]].
  destruct (sendToProver_returns _ _ _ _ H2) as [url2 [Hurl2 [_ T2]]].
  destruct (sendToProver_returns _ _ _ _ H3) as [url3 [Hurl3 [_ T3]]].
  destruct (sendToProver_returns _ _ _ _ H4) as [url4 [Hurl4 [_ T4]]].
  rewrite Hurl in Hurl2, Hurl3, Hurl4.
  injection Hurl2 as <-. injection Hurl3 as <-. injection Hurl4 as <-.
  exists url, s1, s2, s3, n, block, p, created, accessList, first, address, storageKeys,
    proved.
  split; [exact Hurl |]. split; [exact Hne |].
  split; [reflexivity |]. split; [exact H2 |]. split.
  { destruct params; exact Hp. }
  split; [exact H3 |]. split; [exact Hlist |].
  split; [exact Hfirst |]. split; [exact Haddress |]. split; [exact Hkeys |].
  split; [exact H4 |].
  rewrite T4, T3, T2, T1. rewrite <- !app_assoc. reflexivity.
Qed.

Lemma verifyStatelessProof_protocol_witness :
  exists url (s1 s2 s3 : machine (Demo.proving true (BodySingle (Demo.answer []))))
         latestBlockNumber block createAccessListParams created
         accessList first address storageKeys proved,
    proverUrl (Demo.client None (Some Demo.prover)) = Some url /\ url <> "" /\
    sendToProver (Demo.client None (Some Demo.prover)) "eth_blockNumber" []
      (Demo.proving_after true (BodySingle (Demo.answer [])) [])
    = (Ok latestBlockNumber, s1) /\
    sendToProver (Demo.client None (Some Demo.prover)) "eth_getBlockByNumber"
      [latestBlockNumber; JBool false] s1
    = (Ok block, s2) /\
    extractDefinedProperties Demo.call_object = Ok createAccessListParams /\
    sendToProver (Demo.client None (Some Demo.prover)) "eth_createAccessList"
      [createAccessListParams] s2
    = (Ok created, s3) /\
    read_property created "accessList" = Ok accessList /\
    read_index accessList 0 = Ok first /\
    read_property first "address" = Ok address /\
    read_property first "storageKeys" = Ok storageKeys /\
    sendToProver (Demo.client None (Some Demo.prover)) "eth_getProof"
      [address; storageKeys; latestBlockNumber] s3
    = (Ok proved, Demo.proving_after true (BodySingle (Demo.answer [])) Demo.proof_calls) /\
    Demo.proof_calls =
    [] ++
    [Post url {| id := Date_now (Demo.proving true (BodySingle (Demo.answer [])))
                          (world (Demo.proving_after true (BodySingle (Demo.answer [])) []));
                 method := "eth_blockNumber"; params := [] |};
     Post url {| id := Date_now (Demo.proving true (BodySingle (Demo.answer []))) (world s1);
                 method := "eth_getBlockByNumber";
                 params := [latestBlockNumber; JBool false] |};
     Post url {| id := Date_now (Demo.proving true (BodySingle (Demo.answer []))) (world s2);
                 method := "eth_createAccessList";
                 params := [createAccessListParams] |};
     Post url {| id := Date_now (Demo.proving true (BodySingle (Demo.answer []))) (world s3);
                 method := "eth_getProof";
                 params := [address; storageKeys; latestBlockNumber] |}].
Proof.
  exact (@verifyStatelessProof_protocol
           (Demo.proving true (BodySingle (Demo.answer [])))
           (Demo.client None (Some Demo.prover))
           (JArr [Demo.call_object; JStr "latest"]) tt
           (Demo.proving_after true (BodySingle (Demo.answer [])) [])
           (Demo.proving_after true (BodySingle (Demo.answer [])) Demo.proof_calls)
           eq_refl).
Defined.

(** X20.  Only the first entry of the access list is read, and it is read
    without a check that it exists: when the prover answers
    [eth_createAccessList] with an empty access list, [verifyStatelessProof]
    throws a TypeError after its third call, and a proof-gated [request]
    throws it without calling the main endpoint. *)
Theorem empty_access_list_is_a_type_error (rt : Runtime) (this : StatelessRpcClient)
    (method : string) (params : list jsvalue)
    (latestBlockNumber block stateRootHex createAccessListParams created : jsvalue)
    (stateRoot : list byte) (s s1 s2 s3 : machine rt) :
  proof_required this method = true ->
  sendToProver this "eth_blockNumber" [] s = (Ok latestBlockNumber, s1) ->
  sendToProver this "eth_getBlockByNumber" [latestBlockNumber; JBool false] s1
    = (Ok block, s2) ->
  read_property block "stateRoot" = Ok stateRootHex ->
  fromHexString rt stateRootHex = Ok stateRoot ->
  extractDefinedProperties (nth 0 params JUndefined) = Ok createAccessListParams ->
  sendToProver this "eth_createAccessList" [createAccessListParams] s2 = (Ok created, s3) ->
  read_property created "accessList" = Ok (JArr []) ->
  verifyStatelessProof this (JArr params) s = (Err JsTypeError, s3) /\
  request this method params s = (Err JsTypeError, s3).
Proof.
  intros Hreq H1 H2 Hroot Hhex Hp H3 Hlist.
  assert (Hproof : verifyStatelessProof this (JArr params) s = (Err JsTypeError, s3)).
  { unfold verifyStatelessProof.
    unfold proof_required in Hreq. apply andb_true_iff in Hreq as [Htruthy _].
    rewrite Htruthy. change (negb true) with false. cbv iota.
    unfold bindM at 1. rewrite H1.
    unfold bindM at 1. rewrite H2.
    unfold bindM at 1, lift at 1. rewrite Hroot.
    unfold bindM at 1, lift at 1. rewrite Hhex.
    unfold bindM at 1, lift at 1. cbv zeta. rewrite Hp.
    unfold bindM at 1. rewrite H3.
    unfold bindM at 1, lift at 1. rewrite Hlist.
    reflexivity. }
  split; [exact Hproof |].
  unfold request, bindM at 1. now rewrite Hreq, Hproof.
Qed.

Lemma empty_access_list_is_a_type_error_witness :
  request (Demo.client None (Some Demo.prover)) "eth_call"
    [Demo.call_object; JStr "latest"]
    (Transfer.after (BodySingle (Demo.answer [Demo.single None])) [])
  = (Err JsTypeError,
     Transfer.after (BodySingle (Demo.answer [Demo.single None])) Transfer.calls).
Proof.
  exact (proj2 (@empty_access_list_is_a_type_error
                  (Transfer.runtime (BodySingle (Demo.answer [Demo.single None])))
                  (Demo.client None (Some Demo.prover)) "eth_call"
                  [Demo.call_object; JStr "latest"]
                  (JStr "0x10") (JObj [("stateRoot", JStr "0xaa")]) (JStr "0xaa")
                  (JObj [("to", JStr "0x01"); ("data", JStr "0x")])
                  (JObj [("accessList", JArr [])])
                  (Demo.parse_int16 "aa" :: nil)
                  (Transfer.after (BodySingle (Demo.answer [Demo.single None])) [])
                  (Transfer.after (BodySingle (Demo.answer [Demo.single None]))
                     [Demo.prover_post "eth_blockNumber" []])
                  (Transfer.after (BodySingle (Demo.answer [Demo.single None]))
                     [Demo.prover_post "eth_blockNumber" [];
                      Demo.prover_post "eth_getBlockByNumber" [JStr "0x10"; JBool false]])
                  (Transfer.after (BodySingle (Demo.answer [Demo.single None]))
                     Transfer.calls)
                  eq_refl eq_refl eq_refl eq_refl eq_refl eq_refl eq_refl eq_refl)).
Defined.

(** ** Repeated attestations and unequal lengths *)

(** X21.  Attestations are not deduplicated by identity: when the key
    server gives the same ed25519 key at both lookups, an attestation with
    an explicit allow-listed identity that is judged valid counts twice if
    the response carries it twice. *)
Theorem repeated_attestation_counts_twice (rt : Runtime) (this : StatelessRpcClient)
    (contentHashes : list string) (validAttestations : list Attestation) (i : nat)
    (attestation : Attestation) (idn sshPublicKey : string) (key : Key)
    (s s1 s2 : machine rt) :
  identity attestation = Some idn -> idn <> "" ->
  includes (identities this) idn = true ->
  publicKeyFromIdentity idn s = (Ok sshPublicKey, s1) ->
  publicKeyFromIdentity idn s1 = (Ok sshPublicKey, s2) ->
  sshpk_parseKey rt sshPublicKey = Ok key ->
  type key = "ed25519" ->
  verifyAttestation rt attestation (part_A_data key) contentHashes = Ok true ->
  verifyAttestations_loop this contentHashes i [attestation; attestation]
    validAttestations s
  = ({| validAttestations_at_exit := validAttestations ++ [attestation; attestation];
        thrown := None |}, s2).
Proof.
  intros Hid Hne Hin Hfetch1 Hfetch2 Hparse Htype Hvalid.
  assert (Hassign : forall j, assign_identity this j attestation = attestation).
  { intros j. unfold assign_identity. rewrite Hid.
    now rewrite (proj2 (truthy_string_Some idn) Hne). }
  assert (Hbody : forall j valid (t t1 : machine rt),
            publicKeyFromIdentity idn t = (Ok sshPublicKey, t1) ->
            verifyAttestations_body this contentHashes valid j attestation t
            = (Ok (valid ++ [attestation]), t1)).
  { intros j valid t t1 Hfetch.
    rewrite (@body_listed rt this contentHashes valid j attestation idn t);
      [| now rewrite Hassign | exact Hin].
    rewrite Hfetch, Hparse, Htype, Hassign, Hvalid. reflexivity. }
  simpl. rewrite (Hbody i validAttestations s s1 Hfetch1).
  rewrite (Hbody (S i) (validAttestations ++ [attestation]) s1 s2 Hfetch2).
  now rewrite <- app_assoc.
Qed.

Lemma repeated_attestation_counts_twice_witness :
  verifyAttestations_loop (Demo.client None None) [Demo.digest_0x1] 0
    [Demo.single (Some Demo.attestor_a); Demo.single (Some Demo.attestor_a)] []
    (Demo.boot (Demo.answer []))
  = ({| validAttestations_at_exit :=
          [] ++ [Demo.single (Some Demo.attestor_a); Demo.single (Some Demo.attestor_a)];
        thrown := None |},
     Demo.after (Demo.answer [])
       [Get (Demo.well_known Demo.attestor_a); Get (Demo.well_known Demo.attestor_a)]).
Proof.
  exact (@repeated_attestation_counts_twice (Demo.serving (Demo.answer []))
           (Demo.client None None) [Demo.digest_0x1] [] 0
           (Demo.single (Some Demo.attestor_a)) Demo.attestor_a Demo.key_text_a
           {| type := "ed25519"; part_A_data := Demo.public_key |}
           (Demo.boot (Demo.answer []))
           (Demo.after (Demo.answer []) [Get (Demo.well_known Demo.attestor_a)])
           (Demo.after (Demo.answer [])
              [Get (Demo.well_known Demo.attestor_a); Get (Demo.well_known Demo.attestor_a)])
           eq_refl ltac:(discriminate) eq_refl eq_refl eq_refl eq_refl eq_refl eq_refl).
Defined.

Lemma every_from_ext {A} (f g : A -> nat -> completion bool) (l : list A) :
  forall i,
    (forall j x, nth_error l j = Some x -> f x (i + j)%nat = g x (i + j)%nat) ->
    every_from f i l = every_from g i l.
Proof.
  induction l as [| a l IH]; intros i H; simpl; [reflexivity |].
  pose proof (H 0%nat a eq_refl) as H0. rewrite Nat.add_0_r in H0. rewrite H0.
  destruct (g a i) as [[|] |]; simpl; try reflexivity.
  apply IH. intros j x Hj. specialize (H (S j) x Hj). now rewrite Nat.add_succ_r in H.
Qed.

(** X22.  In batch mode (a non-empty [msgs]) the signature of the message at
    an index is read at the same index of [signatures], without a length
    check.  Signatures
    beyond the last message are never looked at; with fewer signatures than
    messages the missing ones are [undefined], and on a runtime whose hex
    decoder throws on [undefined], as Node's does, the attestation is
    invalid. *)
Theorem batch_lengths_need_not_match (rt : Runtime) (attestation : Attestation)
    (publicKey : list byte) (contentHashes : list string) (ms sigs : list string) :
  msgs attestation = Some ms -> ms <> [] ->
  signatures attestation = Some sigs ->
  (forall more other,
     (List.length ms <= List.length sigs)%nat ->
     msgs other = Some ms -> signatures other = Some (sigs ++ more) ->
     verifyAttestation rt other publicKey contentHashes
     = verifyAttestation rt attestation publicKey contentHashes) /\
  (forall e,
     (List.length sigs < List.length ms)%nat ->
     Buffer_from_hex rt None = Err e ->
     verifyAttestation rt attestation publicKey contentHashes = Ok false).
Proof.
  intros Hms Hne Hsigs. split.
  - intros more other Hlen Hms' Hsigs'.
    assert (Hbatch : batch_mode other = batch_mode attestation).
    { unfold batch_mode. now rewrite Hms, Hsigs, Hms', Hsigs'. }
    unfold verifyAttestation. rewrite Hbatch, Hms, Hsigs, Hms', Hsigs'.
    destruct (batch_mode attestation) eqn:Ha.
    + destruct (negb _); [reflexivity |].
      apply every_from_ext. intros j m Hj. simpl.
      assert (Hlt : (j < List.length sigs)%nat).
      { apply Nat.lt_le_trans with (2 := Hlen). apply nth_error_Some. congruence. }
      now rewrite nth_error_app1.
    + unfold batch_mode in Ha. rewrite Hms, Hsigs in Ha.
      destruct ms; [congruence | discriminate].
  - intros e Hlen Hdecode.
    apply not_true_is_Ok_false; [apply verifyAttestation_returns |].
    unfold verifyAttestation.
    assert (Hbatch : batch_mode attestation = true).
    { unfold batch_mode. rewrite Hms, Hsigs. destruct ms; [simpl in Hlen; lia | reflexivity]. }
    rewrite Hbatch, Hms, Hsigs.
    destruct (negb _); [discriminate |].
    intros Hall. rewrite every_from_true in Hall.
    destruct (nth_error ms (List.length sigs)) as [m |] eqn:Hm.
    + specialize (Hall (List.length sigs) m Hm). simpl in Hall.
      rewrite (proj2 (nth_error_None sigs (List.length sigs)) (le_n _)) in Hall.
      unfold verifySignature, try_catch, bindR in Hall. rewrite Hdecode in Hall.
      discriminate.
    + apply nth_error_None in Hm. lia.
Qed.

Lemma batch_lengths_need_not_match_witness :
  verifyAttestation Demo.idle
    {| signature := None; signatures := Some [Demo.signature_0x1];
       signatureFormat := "ssh-ed25519"; hashAlgo := "sha256";
       msg := None; msgs := Some [Demo.digest_0x1; Demo.digest_0x2]; identity := None |}
    Demo.public_key [Demo.digest_0x1]
  = Ok false.
Proof.
  exact (proj2 (@batch_lengths_need_not_match Demo.idle
                  {| signature := None; signatures := Some [Demo.signature_0x1];
                     signatureFormat := "ssh-ed25519"; hashAlgo := "sha256";
                     msg := None; msgs := Some [Demo.digest_0x1; Demo.digest_0x2];
                     identity := None |}
                  Demo.public_key [Demo.digest_0x1]
                  [Demo.digest_0x1; Demo.digest_0x2] [Demo.signature_0x1]
                  eq_refl ltac:(discriminate) eq_refl)
               JsTypeError ltac:(simpl; lia) eq_refl).
Defined.
